(** * ddbeck/feature-set: the release script [scripts/release.ts]

    A shallow embedding of the release-automation script.  The script is a
    straight line of calls to the operating system (child processes, the file
    system, the clock, the logger), so a function of the script becomes a
    program tree over those calls, and a run of it is that tree followed along
    one answer per call.  Properties of the script are properties of every
    such run.

    What is outside the script is not modelled beyond its interface: the
    commands are command lines, not what a shell and the programs make of
    them; [JSON.parse] is a parameter; the logger is the calls made to it;
    [yargs] is the argument it hands to the handler.  A string is the UTF-8
    of the JavaScript string it stands for, paths are joined with [/]. *)

From Stdlib Require Import ZArith List String Ascii Bool Lia.
Import ListNotations.

Open Scope string_scope.
Open Scope Z_scope.

Set Implicit Arguments.

(** ** Strings as JavaScript uses them *)

Module Str.

(** The double quote, which the command lines of the script contain. *)
Definition dq : string := String (ascii_of_nat 34) EmptyString.

(** The line feed, the separator of [Array.prototype.join("\n")]. *)
Definition nl : string := String (ascii_of_nat 10) EmptyString.

Definition quoted (s : string) : string := dq ++ s ++ dq.

(** The string of the given bytes. *)
Fixpoint utf8 (bytes : list Z) : string :=
  match bytes with
  | [] => EmptyString
  | b :: rest => String (ascii_of_nat (Z.to_nat b)) (utf8 rest)
  end.

Fixpoint all_chars (p : ascii -> bool) (s : string) : bool :=
  match s with
  | EmptyString => true
  | String c s' => p c && all_chars p s'
  end.

Fixpoint drop_chars (p : ascii -> bool) (s : string) : string :=
  match s with
  | EmptyString => EmptyString
  | String c s' => if p c then drop_chars p s' else String c (drop_chars p s')
  end.

Fixpoint mem_char (c : ascii) (s : string) : bool :=
  match s with
  | EmptyString => false
  | String d s' => Ascii.eqb c d || mem_char c s'
  end.

Definition is_digit (c : ascii) : bool :=
  let n := nat_of_ascii c in (Nat.leb 48 n && Nat.leb n 57)%bool.

(** The white space and the line terminators of ECMA-262, which
    [String.prototype.trim] strips, as they stand in UTF-8.  In one byte:
    the space and the controls from tab to carriage return (U+0009 to
    U+000D). *)
Definition is_space1 (c : ascii) : bool :=
  let n := nat_of_ascii c in
  (Nat.eqb n 32 || (Nat.leb 9 n && Nat.leb n 13))%bool.

(** In two bytes: the no-break space U+00A0, [C2 A0]. *)
Definition is_space2 (c1 c2 : ascii) : bool :=
  (Nat.eqb (nat_of_ascii c1) 194 && Nat.eqb (nat_of_ascii c2) 160)%bool.

(** In three bytes: U+1680 [E1 9A 80]; U+2000 to U+200A [E2 80 80] to
    [E2 80 8A]; the line and paragraph separators U+2028 and U+2029
    [E2 80 A8], [E2 80 A9]; U+202F [E2 80 AF]; U+205F [E2 81 9F]; U+3000
    [E3 80 80]; and the byte order mark U+FEFF [EF BB BF]. *)
Definition is_space3 (c1 c2 c3 : ascii) : bool :=
  let n1 := nat_of_ascii c1 in
  let n2 := nat_of_ascii c2 in
  let n3 := nat_of_ascii c3 in
  ((Nat.eqb n1 225 && Nat.eqb n2 154 && Nat.eqb n3 128)
   || (Nat.eqb n1 226 && Nat.eqb n2 128
       && ((Nat.leb 128 n3 && Nat.leb n3 138)
           || Nat.eqb n3 168 || Nat.eqb n3 169 || Nat.eqb n3 175))
   || (Nat.eqb n1 226 && Nat.eqb n2 129 && Nat.eqb n3 159)
   || (Nat.eqb n1 227 && Nat.eqb n2 128 && Nat.eqb n3 128)
   || (Nat.eqb n1 239 && Nat.eqb n2 187 && Nat.eqb n3 191))%bool.

Fixpoint trimStart (s : string) : string :=
  match s with
  | EmptyString => EmptyString
  | String c1 s1 =>
      if is_space1 c1 then trimStart s1
      else
        match s1 with
        | EmptyString => s
        | String c2 s2 =>
            if is_space2 c1 c2 then trimStart s2
            else
              match s2 with
              | EmptyString => s
              | String c3 s3 =>
                  if is_space3 c1 c2 c3 then trimStart s3 else s
              end
        end
  end.

(** A string of white space only. *)
Definition blank (s : string) : bool :=
  match trimStart s with
  | EmptyString => true
  | String _ _ => false
  end.

(** The string up to the white space it ends with: it stops where what is
    left is white space only.  (In UTF-8 no character starts in the middle
    of another, so what is left starts at a character.) *)
Fixpoint trimEnd (s : string) : string :=
  match s with
  | EmptyString => EmptyString
  | String c s' => if blank s then EmptyString else String c (trimEnd s')
  end.

(** [String.prototype.trim]. *)
Definition trim (s : string) : string := trimEnd (trimStart s).

Fixpoint rev (s : string) : string :=
  match s with
  | EmptyString => EmptyString
  | String c s' => rev s' ++ String c EmptyString
  end.

(** [Array.prototype.join] on strings. *)
Fixpoint join (sep : string) (l : list string) : string :=
  match l with
  | [] => EmptyString
  | [x] => x
  | x :: l' => x ++ sep ++ join sep l'
  end.

End Str.

(** ** [Date.prototype.toISOString] (ECMA-262, Date Time String Format)

  A time value is a number of milliseconds since the epoch, in UTC. *)

Module JsDate.

Definition msPerDay : Z := 86400000.
Definition msPerHour : Z := 3600000.
Definition msPerMinute : Z := 60000.
Definition msPerSecond : Z := 1000.

(** The greatest time value of ECMA-262: 8.64e15 ms either side of the epoch. *)
Definition maxTime : Z := 8640000000000000.

Definition Day (t : Z) : Z := t / msPerDay.
Definition HourFromTime (t : Z) : Z := (t / msPerHour) mod 24.
Definition MinFromTime (t : Z) : Z := (t / msPerMinute) mod 60.
Definition SecFromTime (t : Z) : Z := (t / msPerSecond) mod 60.
Definition msFromTime (t : Z) : Z := t mod msPerSecond.

(** The civil date of a day number, by 400-year eras that start on 1 March:
    the year, the month (1 to 12) and the day of the month (1 to 31) of the
    proleptic Gregorian calendar. *)
Definition civil (days : Z) : Z * Z * Z :=
  let z := days + 719468 in
  let era := z / 146097 in
  let doe := z mod 146097 in
  let yoe := (doe - doe / 1460 + doe / 36524 - doe / 146096) / 365 in
  let doy := doe - (365 * yoe + yoe / 4 - yoe / 100) in
  let mp := (5 * doy + 2) / 153 in
  let d := doy - (153 * mp + 2) / 5 + 1 in
  let m := if mp <? 10 then mp + 3 else mp - 9 in
  let y := yoe + era * 400 + (if m <=? 2 then 1 else 0) in
  (y, m, d).

(** [DayFromYear] of ECMA-262: the day number of 1 January of year [y]. *)
Definition DayFromYear (y : Z) : Z :=
  365 * (y - 1970) + (y - 1969) / 4 - (y - 1901) / 100 + (y - 1601) / 400.

Definition YearFromTime (t : Z) : Z := fst (fst (civil (Day t))).
(** Months count from 1 here, as they are printed. *)
Definition MonthFromTime (t : Z) : Z := snd (fst (civil (Day t))).
Definition DateFromTime (t : Z) : Z := snd (civil (Day t)).

Definition digit (n : Z) : ascii := ascii_of_nat (48 + Z.to_nat (n mod 10)).

(** [n] in decimal, padded with zeros to [w] digits (its [w] low digits). *)
Fixpoint pad (w : nat) (n : Z) : string :=
  match w with
  | O => EmptyString
  | S w' => pad w' (n / 10) ++ String (digit n) EmptyString
  end.

(** Years 0 to 9999 print as four digits, the others as a sign and six. *)
Definition isoYear (y : Z) : string :=
  if (0 <=? y) && (y <=? 9999) then pad 4 y
  else (if y <? 0 then "-" else "+") ++ pad 6 (Z.abs y).

Definition toISOString (t : Z) : string :=
  isoYear (YearFromTime t) ++ "-" ++ pad 2 (MonthFromTime t) ++ "-"
    ++ pad 2 (DateFromTime t) ++ "T" ++ pad 2 (HourFromTime t) ++ ":"
    ++ pad 2 (MinFromTime t) ++ ":" ++ pad 2 (SecFromTime t) ++ "."
    ++ pad 3 (msFromTime t) ++ "Z".

(** The date and the time of day of [toISOString], without the separators. *)
Definition compactRest (t : Z) : string :=
  pad 2 (MonthFromTime t) ++ pad 2 (DateFromTime t) ++ pad 2 (HourFromTime t)
    ++ pad 2 (MinFromTime t) ++ pad 2 (SecFromTime t) ++ pad 3 (msFromTime t).

End JsDate.

(** ** Values, errors and the calls the script makes *)

(** The JavaScript values that flow through the script besides plain strings:
    a property of a caught error is a string, [null] or [undefined]. *)
Inductive JsVal : Type :=
| JsUndefined
| JsNull
| JsString (s : string).

(** What [Array.prototype.join] prints for an element: [null] and
    [undefined] print as nothing. *)
Definition joinElement (v : JsVal) : string :=
  match v with
  | JsString s => s
  | JsUndefined | JsNull => ""
  end.

(** The error [execSync] throws carries the child's exit status ([None] for
    JavaScript's [null], when a signal ended it or it never started) and what
    was captured of its output. *)
Record ChildFailure : Type := mkChildFailure {
  status : option Z;
  stdout : JsVal;
  stderr : JsVal;
  error : JsVal
}.

Inductive JsError : Type :=
| ChildProcessError (f : ChildFailure)
| SystemError (code : string)
| SyntaxError (message : string)
| TypeError (message : string)
| Error (message : string).

(** [err.status] on a caught value, when it is a number. *)
Definition err_status (err : JsError) : option Z :=
  match err with ChildProcessError f => status f | _ => None end.

(** [err.status === n] on a caught value. *)
Definition status_is (err : JsError) (n : Z) : bool :=
  match err_status err with
  | Some s => s =? n
  | None => false
  end.

(** [err.stdout], [err.stderr] and [err.error] on a caught value. *)
Definition err_stdout (err : JsError) : JsVal :=
  match err with ChildProcessError f => stdout f | _ => JsUndefined end.
Definition err_stderr (err : JsError) : JsVal :=
  match err with ChildProcessError f => stderr f | _ => JsUndefined end.
Definition err_error (err : JsError) : JsVal :=
  match err with ChildProcessError f => error f | _ => JsUndefined end.

(** The options the script passes to [execSync]. *)
Record ExecOpts : Type := mkExecOpts {
  cwd : option string;
  encoding : option string;
  stdio : option string
}.

Definition no_opts : ExecOpts := mkExecOpts None None None.
Definition utf8 : ExecOpts := mkExecOpts None (Some "utf-8") None.
Definition inherit : ExecOpts := mkExecOpts None None (Some "inherit").

(** The calls of [node:fs].  The script imports the first five; [RmSync]
    stands for the removal a cleanup would make, which it never calls. *)
Inductive FsCall : Type :=
| MkdtempSync (prefix : string)
| ReadFileSync (path : string)
| WriteFileSync (path data : string)
| CopyFileSync (src dest : string)
| AppendFileSync (path data : string)
| RmSync (path : string).

(** The severities of the winston logger the script uses. *)
Inductive Level : Type := LError | LWarn | LInfo | LDebug.

(** A program: it returns, throws, ends the process, or makes a call and goes
    on with the answer.  A call that can fail is answered by the error it
    throws or by its result: the captured standard output of a child, the
    path [mkdtempSync] made, the content [readFileSync] read (the other file
    calls return nothing, and their answer is not looked at). *)
Inductive Prog (A : Type) : Type :=
| Ret (a : A)
| Throw (e : JsError)
| ProcessExit (code : Z)
| ExecSync (cmd : string) (opts : ExecOpts) (k : JsError + string -> Prog A)
| Fs (call : FsCall) (k : JsError + string -> Prog A)
| Logger (lvl : Level) (args : list JsVal) (k : Prog A)
| NewDate (k : Z -> Prog A).

Arguments Ret {A} a.
Arguments Throw {A} e.
Arguments ProcessExit {A} code.
Arguments ExecSync {A} cmd opts k.
Arguments Fs {A} call k.
Arguments Logger {A} lvl args k.
Arguments NewDate {A} k.

Fixpoint bind {A B : Type} (p : Prog A) (f : A -> Prog B) : Prog B :=
  match p with
  | Ret a => f a
  | Throw e => Throw e
  | ProcessExit c => ProcessExit c
  | ExecSync cmd o k => ExecSync cmd o (fun r => bind (k r) f)
  | Fs c k => Fs c (fun r => bind (k r) f)
  | Logger l a k => Logger l a (bind k f)
  | NewDate k => NewDate (fun t => bind (k t) f)
  end.

(** [try { p } catch (err) { h err }]: only a throw reaches the handler, the
    end of the process does not. *)
Fixpoint try_catch {A : Type} (p : Prog A) (h : JsError -> Prog A) : Prog A :=
  match p with
  | Ret a => Ret a
  | Throw e => h e
  | ProcessExit c => ProcessExit c
  | ExecSync cmd o k => ExecSync cmd o (fun r => try_catch (k r) h)
  | Fs c k => Fs c (fun r => try_catch (k r) h)
  | Logger l a k => Logger l a (try_catch k h)
  | NewDate k => NewDate (fun t => try_catch (k t) h)
  end.

Declare Scope prog_scope.
Delimit Scope prog_scope with prog.
Bind Scope prog_scope with Prog.

Notation "x <- p ;; q" := (bind p (fun x => q))
  (at level 61, p at next level, right associativity) : prog_scope.
Notation "p ;; q" := (bind p (fun _ => q))
  (at level 61, right associativity) : prog_scope.

Open Scope prog_scope.

(** The throwing calls of the JavaScript API. *)
Definition throwing {A : Type} (f : string -> A) (r : JsError + string)
  : Prog A :=
  match r with
  | inl e => Throw e
  | inr s => Ret (f s)
  end.

Definition execSync (cmd : string) (opts : ExecOpts) : Prog string :=
  ExecSync cmd opts (throwing (fun s => s)).
Definition mkdtempSync (prefix : string) : Prog string :=
  Fs (MkdtempSync prefix) (throwing (fun s => s)).
Definition readFileSync (path : string) : Prog string :=
  Fs (ReadFileSync path) (throwing (fun s => s)).
Definition writeFileSync (path data : string) : Prog unit :=
  Fs (WriteFileSync path data) (throwing (fun _ => tt)).
Definition copyFileSync (src dest : string) : Prog unit :=
  Fs (CopyFileSync src dest) (throwing (fun _ => tt)).
Definition appendFileSync (path data : string) : Prog unit :=
  Fs (AppendFileSync path data) (throwing (fun _ => tt)).
Definition newDate : Prog Z := NewDate (fun t => Ret t).
Definition process_exit {A : Type} (code : Z) : Prog A := ProcessExit code.

Definition logger_log (lvl : Level) (args : list JsVal) : Prog unit :=
  Logger lvl args (Ret tt).
Definition logger_info (msg : string) := logger_log LInfo [JsString msg].
Definition logger_debug (msg : string) := logger_log LDebug [JsString msg].
Definition logger_warn (msg : string) := logger_log LWarn [JsString msg].

(** [path.join] on segments that are already normalised. *)
Definition path_join (segments : list string) : string :=
  Str.join "/" segments.

(** ** JSON values and the template literal *)

#[local] Unset Elimination Schemes.
Inductive Json : Type :=
| JNull
| JBool (b : bool)
| JNumber (repr : string)   (* the number, as [Number.prototype.toString] prints it *)
| JString (s : string)
| JArray (items : list Json)
| JObject (fields : list (string * Json)).
#[local] Set Elimination Schemes.

(** The property [key] of a parsed object; of a repeated key [JSON.parse]
    keeps the last. *)
Fixpoint lookup_field (key : string) (fields : list (string * Json))
  : option Json :=
  match fields with
  | [] => None
  | (k, v) :: rest =>
      match lookup_field key rest with
      | Some w => Some w
      | None => if String.eqb k key then Some v else None
      end
  end.

(** [const { version } = value]: [None] is [undefined]; [null] cannot be
    destructured. *)
Definition destructure_version (value : Json) : JsError + option Json :=
  match value with
  | JNull => inl (TypeError "Cannot destructure property 'version' of null")
  | JObject fields => inr (lookup_field "version" fields)
  | _ => inr None
  end.

(** [`${v}`] on a parsed value. *)
Fixpoint toString (v : Json) : string :=
  match v with
  | JNull => "null"
  | JBool true => "true"
  | JBool false => "false"
  | JNumber repr => repr
  | JString s => s
  | JArray items =>
      Str.join ","
        (map (fun i => match i with JNull => "" | _ => toString i end) items)
  | JObject _ => "[object Object]"
  end.

Definition template (v : option Json) : string :=
  match v with
  | None => "undefined"
  | Some j => toString j
  end.

(** ** The script *)

(** The choices of the [semverlevel] option. *)
Inductive SemverLevel : Type := major | minor | patch | prerelease.

Definition level_name (l : SemverLevel) : string :=
match l with
| major => "major"
| minor => "minor"
| patch => "patch"
| prerelease => "prerelease"
end.

Record Args : Type := mkArgs { semverlevel : SemverLevel }.

(** [new Date().toISOString().replace(/[\-T:\.Z]/g, "")] *)
Definition compactISO (t : Z) : string :=
Str.drop_chars (fun c => Str.mem_char c "-T:.Z") (JsDate.toISOString t).

Definition releaseBranchName (t : Z) : string := "release-" ++ compactISO t.

Section Release.

(** [os.tmpdir()]. *)
Variable tmpdir : string.
(** The directory that holds [scripts/release.ts], from [import.meta.url]:
    [scripts/] and [packages/] lie side by side in it. *)
Variable repoRoot : string.
(** [JSON.parse]. *)
Variable JSON_parse : string -> JsError + Json.

Definition packages_web_features : string :=
  path_join [repoRoot; "packages"; "web-features"].

Definition run (cmd : string) : Prog unit :=
  execSync cmd inherit ;; Ret tt.

Definition diffJson : Prog JsVal :=
  temporaryDir <- mkdtempSync (path_join [tmpdir; "web-features-"]) ;;
  execSync "npm install web-features"
    (mkExecOpts (Some temporaryDir) (Some "utf-8") None) ;;
  let releasedJson :=
    path_join [temporaryDir; "node_modules"; "web-features"; "index.json"] in
  prettyReleasedJson <- execSync ("jq . " ++ Str.quoted releasedJson) utf8 ;;
  let prettyReleasedJsonFp :=
    path_join [temporaryDir; "index.released.pretty.json"] in
  writeFileSync prettyReleasedJsonFp prettyReleasedJson ;;
  execSync "npm run build" inherit ;;
  let preparedJson := path_join [packages_web_features; "index.json"] in
  prettyPreparedJson <- execSync ("jq . " ++ Str.quoted preparedJson) utf8 ;;
  let prettyPreparedJsonFp :=
    path_join [temporaryDir; "index.prepared.pretty.json"] in
  writeFileSync prettyPreparedJsonFp prettyPreparedJson ;;
  try_catch
    (out <- execSync
              ("diff --unified " ++ Str.quoted prettyReleasedJsonFp ++ " "
                 ++ Str.quoted prettyPreparedJsonFp) utf8 ;;
     Ret (JsString out))
    (fun err =>
       if status_is err 1 then Ret (err_stdout err) else Throw err).

Definition bodyFile : string :=
  path_join [repoRoot; "scripts"; "release-pull-description.md"].

Definition manifest : string :=
  path_join [packages_web_features; "package.json"].

(** [init] is one function in the script.  It is cut in three here, where
    the script itself changes subject: the preflight checks (up to the
    call of [diffJson]), the call of [diffJson], and the steps of the
    release (from "Start a release branch" on).  [head] and [diff] are the
    two constants that the later steps use of the earlier ones. *)
Definition preflight : Prog string :=
  logger_info "Running preflight checks" ;;
  (* Confirm base branch *)
  logger_info "Checking base branch" ;;
  let headCmd := "git rev-parse --abbrev-ref HEAD" in
  logger_debug headCmd ;;
  headOut <- execSync headCmd utf8 ;;
  let head := Str.trim headOut in
  (if String.eqb head "main" then Ret tt
   else logger_warn "Base banch is not main") ;;
  (* Make sure gh CLI is installed and has auth *)
  logger_info "Confirming gh CLI is installed and authorized" ;;
  let ghVersionCmd := "gh version" in
  try_catch
    (logger_debug ghVersionCmd ;;
     execSync ghVersionCmd no_opts ;; Ret tt)
    (fun err =>
       logger_log LError
         [JsString "gh CLI failed to run. Do you have it installed?";
          err_error err] ;;
       process_exit 1) ;;
  let ghAuthStatus := "gh auth status" in
  try_catch
    (logger_debug ghAuthStatus ;;
     run ghAuthStatus)
    (fun err =>
       logger_log LError
         [JsString "`gh auth status` was non-zero. Try running `gh auth login` or `gh auth refresh` and try again.";
          err_error err] ;;
       logger_log LError [err_stderr err] ;;
       process_exit 1) ;;
  logger_info "Confirming jq is installed" ;;
  let jqVersionCmd := "jq --version" in
  try_catch
    (logger_debug jqVersionCmd ;;
     execSync jqVersionCmd no_opts ;; Ret tt)
    (fun err =>
       logger_log LError
         [JsString "jq failed to run. Do you have it installed?";
          err_error err] ;;
       process_exit 1) ;;
  Ret head.

Definition release (args : Args) (head : string) (diff : JsVal)
  : Prog unit :=
  (* Start a release branch *)
  now <- newDate ;;
  let releaseBranch := releaseBranchName now in
  logger_info ("Starting release branch " ++ releaseBranch) ;;
  let branchCmd := "git branch " ++ releaseBranch ++ " " ++ head in
  run branchCmd ;;
  (* Check out release branch *)
  logger_info ("Checking out release branch " ++ releaseBranch) ;;
  let checkoutCmd := "git checkout " ++ releaseBranch in
  logger_debug checkoutCmd ;;
  execSync checkoutCmd no_opts ;;
  (* Bump version (no commit) *)
  let bumpCmd :=
    "npm version --no-git-tag-version " ++ level_name (semverlevel args) in
  logger_info "Bumping version number" ;;
  logger_debug bumpCmd ;;
  execSync bumpCmd
    (mkExecOpts (Some packages_web_features) None (Some "inherit")) ;;
  manifestText <- readFileSync manifest ;;
  parsed <- (match JSON_parse manifestText with
             | inl e => Throw e
             | inr j => Ret j
             end) ;;
  version <- (match destructure_version parsed with
              | inl e => Throw e
              | inr v => Ret v
              end) ;;
  manifestAgain <- readFileSync manifest ;;
  logger_debug manifestAgain ;;
  (* Commit *)
  logger_info "Committing version bump" ;;
  let commitMessage :=
    "Increment " ++ level_name (semverlevel args) ++ " version to v"
      ++ template version in
  let commitCmd :=
    "git commit --all --message=" ++ Str.quoted commitMessage in
  run commitCmd ;;
  (* Push release branch *)
  logger_info "Pushing release branch" ;;
  let pushCmd := "git push --set-upstream origin " ++ releaseBranch in
  run pushCmd ;;
  (* Create PR *)
  logger_info ("Creating PR for " ++ template version) ;;
  let title := "📦 Release web-features@" ++ template version in
  let reviewer := "ddbeck" in
  temporaryDir <- mkdtempSync (path_join [tmpdir; "pull-request-"]) ;;
  let temporaryBodyFile := path_join [temporaryDir; "body.md"] in
  copyFileSync bodyFile temporaryBodyFile ;;
  appendFileSync temporaryBodyFile
    (Str.join Str.nl ["```diff"; joinElement diff; "```"]) ;;
  let pullRequestCmd :=
    Str.join " "
      ["gh pr create";
       "--title=" ++ Str.quoted title;
       "--reviewer=" ++ Str.quoted reviewer;
       "--body-file=" ++ temporaryBodyFile;
       "--repo=" ++ Str.quoted "ddbeck/feature-set";
       "--base=" ++ Str.quoted "main";
       "--head=" ++ Str.quoted releaseBranch] in
  run pullRequestCmd.

Definition init (args : Args) : Prog unit :=
  head <- preflight ;;
  diff <- diffJson ;;
  release args head diff.

Definition update {T : Type} (args : T) : Prog unit :=
  Throw (Error "Not implemented").

Definition publish {T : Type} (args : T) : Prog unit :=
  Throw (Error "Not implemented").

End Release.

(** ** Runs

    A run of a program is the list of the calls it made, each with the answer
    it got, and how it ended. *)

Inductive Event : Type :=
| EvExec (cmd : string) (opts : ExecOpts) (r : JsError + string)
| EvFs (call : FsCall) (r : JsError + string)
| EvLog (lvl : Level) (args : list JsVal)
| EvDate (t : Z).

Inductive Outcome (A : Type) : Type :=
| Returned (a : A)
| Threw (e : JsError)
| Exited (code : Z).

Arguments Returned {A} a.
Arguments Threw {A} e.
Arguments Exited {A} code.

Inductive runs {A : Type} : Prog A -> list Event -> Outcome A -> Prop :=
| runs_Ret a : runs (Ret a) [] (Returned a)
| runs_Throw e : runs (Throw e) [] (Threw e)
| runs_ProcessExit c : runs (ProcessExit c) [] (Exited c)
| runs_ExecSync cmd o k r tr out :
    runs (k r) tr out -> runs (ExecSync cmd o k) (EvExec cmd o r :: tr) out
| runs_Fs c k r tr out :
    runs (k r) tr out -> runs (Fs c k) (EvFs c r :: tr) out
| runs_Logger l a k tr out :
    runs k tr out -> runs (Logger l a k) (EvLog l a :: tr) out
| runs_NewDate k t tr out :
    runs (k t) tr out -> runs (NewDate k) (EvDate t :: tr) out.

(** The operating system as the script meets it: it answers a call knowing the
    calls made so far (latest first). *)
Record OS : Type := mkOS {
  os_exec : list Event -> string -> ExecOpts -> JsError + string;
  os_fs : list Event -> FsCall -> JsError + string;
  os_now : list Event -> Z
}.

(** The run of a program on a given operating system. *)
Fixpoint interp {A : Type} (os : OS) (past : list Event) (p : Prog A)
  : list Event * Outcome A :=
  match p with
  | Ret a => ([], Returned a)
  | Throw e => ([], Threw e)
  | ProcessExit c => ([], Exited c)
  | ExecSync cmd o k =>
      let ev := EvExec cmd o (os_exec os past cmd o) in
      let (tr, out) := interp os (ev :: past) (k (os_exec os past cmd o)) in
      (ev :: tr, out)
  | Fs c k =>
      let ev := EvFs c (os_fs os past c) in
      let (tr, out) := interp os (ev :: past) (k (os_fs os past c)) in
      (ev :: tr, out)
  | Logger l a k =>
      let ev := EvLog l a in
      let (tr, out) := interp os (ev :: past) k in
      (ev :: tr, out)
  | NewDate k =>
      let ev := EvDate (os_now os past) in
      let (tr, out) := interp os (ev :: past) (k (os_now os past)) in
      (ev :: tr, out)
  end.

Definition execute {A : Type} (os : OS) (p : Prog A) : list Event * Outcome A :=
  interp os [] p.

(** [l] occurs in [tr] as a run of consecutive events. *)
Definition consecutive (l tr : list Event) : Prop :=
  exists before after, tr = (before ++ l ++ after)%list.

(** The first word of a command line: the program it starts. *)
Fixpoint first_word (cmd : string) : string :=
  match cmd with
  | EmptyString => EmptyString
  | String c rest =>
      if Ascii.eqb c " " then EmptyString else String c (first_word rest)
  end.

Definition starts_with (p s : string) : bool := String.prefix p s.

(** The path a file-system call writes to or removes, if it does. *)
Definition written_path (c : FsCall) : option string :=
  match c with
  | MkdtempSync _ | ReadFileSync _ => None
  | WriteFileSync p _ | AppendFileSync p _ | RmSync p => Some p
  | CopyFileSync _ dest => Some dest
  end.

(** An event that removes something: [rmSync], or a child process that is one
    of the removal commands. *)
Definition removes (ev : Event) : bool :=
  match ev with
  | EvFs (RmSync _) _ => true
  | EvExec cmd _ _ =>
      let w := first_word cmd in
      (String.eqb w "rm" || String.eqb w "rmdir" || String.eqb w "unlink")%bool
  | _ => false
  end.

(** The command lines of the events of a trace, in order. *)
Fixpoint commands (tr : list Event) : list string :=
  match tr with
  | [] => []
  | EvExec cmd _ _ :: tr' => cmd :: commands tr'
  | _ :: tr' => commands tr'
  end.

(** The file-system calls of a trace, in order. *)
Fixpoint fs_calls (tr : list Event) : list FsCall :=
  match tr with
  | [] => []
  | EvFs c _ :: tr' => c :: fs_calls tr'
  | _ :: tr' => fs_calls tr'
  end.

(** No call of [node:fs] in the trace writes to [path] or removes it. *)
Definition spares (path : string) (tr : list Event) : Prop :=
  Forall (fun c => written_path c <> Some path) (fs_calls tr).

(** What [diffJson] makes of the answer to the [diff] command: the output,
    or [err.stdout] when it failed. *)
Definition produced_diff (r : JsError + string) : JsVal :=
  match r with
  | inr out => JsString out
  | inl err => err_stdout err
  end.

(** ** What a trace holds *)

(** Events picked by the command line they run and by how it went. *)
Definition exec_of (p : string -> bool) (ev : Event) : bool :=
  match ev with
  | EvExec cmd _ _ => p cmd
  | _ => false
  end.

Definition is_error_log (ev : Event) : bool :=
  match ev with
  | EvLog LError _ => true
  | _ => false
  end.

Definition failed_exec_of (p : string -> bool) (ev : Event) : bool :=
  match ev with
  | EvExec cmd _ (inl _) => p cmd
  | _ => false
  end.

(** ** The three parts of init, and the commands each can run *)

Definition preflight_command (cmd : string) : bool :=
  existsb (String.eqb cmd)
    ["git rev-parse --abbrev-ref HEAD"; "gh version"; "gh auth status";
     "jq --version"].

Definition diffJson_command (cmd : string) : bool :=
  existsb (fun p => starts_with p cmd)
    ["npm install web-features"; "jq . "; "npm run build"; "diff --unified "].

Definition release_command (cmd : string) : bool :=
  existsb (fun p => starts_with p cmd)
    ["git branch "; "git checkout "; "npm version "; "git commit ";
     "git push "; "gh pr create "].

(** How a part that did not return ends the whole. *)
Definition stops {A B : Type} (o : Outcome A) (out : Outcome B) : Prop :=
  match o with
  | Returned _ => False
  | Threw e => out = Threw e
  | Exited c => out = Exited c
  end.

(** A run of init ends in the preflight checks, or in [diffJson], or goes
    through both and is then a run of the release steps. *)
Inductive init_run (tmpdir repoRoot : string)
    (JSON_parse : string -> JsError + Json) (args : Args)
    (tr : list Event) (out : Outcome unit) : Prop :=
| in_preflight o1 :
    runs preflight tr o1 -> stops o1 out ->
    init_run tmpdir repoRoot JSON_parse args tr out
| in_diffJson head tr1 tr2 o2 :
    runs preflight tr1 (Returned head) ->
    runs (diffJson tmpdir repoRoot) tr2 o2 -> stops o2 out ->
    tr = (tr1 ++ tr2)%list ->
    init_run tmpdir repoRoot JSON_parse args tr out
| in_release head diff tr1 tr2 tr3 :
    runs preflight tr1 (Returned head) ->
    runs (diffJson tmpdir repoRoot) tr2 (Returned diff) ->
    runs (release tmpdir repoRoot JSON_parse args head diff) tr3 out ->
    tr = (tr1 ++ tr2 ++ tr3)%list ->
    init_run tmpdir repoRoot JSON_parse args tr out.

(** ** A small operating system to run the script on *)

Module Demo.

(** A package manifest, and a [JSON.parse] that knows this one text. *)
Definition manifestText : string :=
  "{" ++ Str.quoted "name" ++ ":" ++ Str.quoted "web-features" ++ ","
    ++ Str.quoted "version" ++ ":" ++ Str.quoted "0.2.1" ++ "}".

Definition parse (text : string) : JsError + Json :=
  if String.eqb text manifestText
  then inr (JObject [("name", JString "web-features");
                     ("version", JString "0.2.1")])
  else inl (SyntaxError "Unexpected token in JSON").

(** What a machine is like when the script starts: the branch checked out,
    the clock, and the commands that fail there, each with the error
    [execSync] then throws. *)
Record Machine : Type := mkMachine {
  branch : string;
  clock : Z;
  failing : string -> option ChildFailure
}.

Definition exited (code : Z) (out : string) : ChildFailure :=
  mkChildFailure (Some code) (JsString out) (JsString "") JsUndefined.

(** A child that writes nothing the script reads: with ["inherit"] its
    streams are not captured. *)
Definition exited_inherit (code : Z) : ChildFailure :=
  mkChildFailure (Some code) JsNull JsNull JsUndefined.

Definition os (m : Machine) : OS :=
  mkOS
    (fun _ cmd _ =>
       match failing m cmd with
       | Some f => inl (ChildProcessError f)
       | None =>
           inr (if String.eqb cmd "git rev-parse --abbrev-ref HEAD"
                then branch m ++ Str.nl else "")
       end)
    (fun _ call =>
       match call with
       | MkdtempSync prefix => inr (prefix ++ "Xk3v9Q")
       | ReadFileSync _ => inr manifestText
       | _ => inr ""
       end)
    (fun _ => clock m).

(** The commands that start with [word] fail with [f]. *)
Definition fails (word : string) (f : ChildFailure) (cmd : string)
  : option ChildFailure :=
  if starts_with word cmd then Some f else None.

Definition healthy : Machine :=
  mkMachine "main" 1677675296789 (fun _ => None).


Definition in_year_10000 : Machine :=
  mkMachine "main" 253402300800000 (fun _ => None).

Definition differences : string := "--- a" ++ Str.nl ++ "+++ b" ++ Str.nl.

Definition with_differences : Machine :=
  mkMachine "main" 1677675296789 (fails "diff " (exited 1 differences)).

Definition diff_trouble : Machine :=
  mkMachine "main" 1677675296789 (fails "diff " (exited 2 "")).

Definition logged_out : Machine :=
  mkMachine "main" 1677675296789 (fails "gh auth status" (exited_inherit 1)).

Definition without_jq : Machine :=
  mkMachine "main" 1677675296789 (fails "jq --version" (exited 127 "")).

(** The command lines of a run in [/tmp] and [/repo] at that time. *)
Definition diffCmd : string :=
  "diff --unified "
    ++ Str.quoted "/tmp/web-features-Xk3v9Q/index.released.pretty.json"
    ++ " "
    ++ Str.quoted "/tmp/web-features-Xk3v9Q/index.prepared.pretty.json".

Definition commitCmd (level : SemverLevel) : string :=
  "git commit --all --message="
    ++ Str.quoted ("Increment " ++ level_name level ++ " version to v0.2.1").

Definition pullRequestCmd : string :=
  "gh pr create --title=" ++ Str.quoted "📦 Release web-features@0.2.1"
    ++ " --reviewer=" ++ Str.quoted "ddbeck"
    ++ " --body-file=/tmp/pull-request-Xk3v9Q/body.md"
    ++ " --repo=" ++ Str.quoted "ddbeck/feature-set"
    ++ " --base=" ++ Str.quoted "main"
    ++ " --head=" ++ Str.quoted "release-20230301125456789".

Definition run_init (m : Machine) (level : SemverLevel)
  : list Event * Outcome unit :=
  execute (os m) (init "/tmp" "/repo" parse (mkArgs level)).

Definition run_diffJson (m : Machine) : list Event * Outcome JsVal :=
  execute (os m) (diffJson "/tmp" "/repo").

End Demo.

(** ** Failures, warnings and the order of the commands *)

(** The error that a call of the trace threw, if it threw. *)
Definition failure_of (ev : Event) : option JsError :=
  match ev with
  | EvExec _ _ (inl e) | EvFs _ (inl e) => Some e
  | _ => None
  end.

(** The three commands that init only runs to see whether they work. *)
Definition tool_probe (cmd : string) : bool :=
  existsb (String.eqb cmd) ["gh version"; "gh auth status"; "jq --version"].

(** The failures the script catches: a tool probe that fails, and a [diff]
    that exits with status 1. *)
Definition handled (ev : Event) : bool :=
  match ev with
  | EvExec cmd _ (inl e) =>
      (tool_probe cmd || (starts_with "diff " cmd && status_is e 1))%bool
  | _ => false
  end.

Definition is_warning (ev : Event) : bool :=
  match ev with
  | EvLog LWarn _ => true
  | _ => false
  end.

(** Events picked by what they are: a call that threw, a file-system call
    that writes or removes, one that reads, a read that gave a text. *)
Definition failing (ev : Event) : bool :=
  match failure_of ev with Some _ => true | None => false end.

Definition writing (ev : Event) : bool :=
  match ev with
  | EvFs c _ =>
      match written_path c with Some _ => true | None => false end
  | _ => false
  end.

Definition reading (ev : Event) : bool :=
  match ev with
  | EvFs (ReadFileSync _) _ => true
  | _ => false
  end.

Definition manifest_read (ev : Event) : bool :=
  match ev with
  | EvFs (ReadFileSync _) (inr _) => true
  | _ => false
  end.

(** [const { version } = JSON.parse(text)]. *)
Definition read_version (JSON_parse : string -> JsError + Json)
    (text : string) : JsError + option Json :=
  match JSON_parse text with
  | inl e => inl e
  | inr j => destructure_version j
  end.

(** The command lines of init in the order of the script: those of the
    preflight checks, those of [diffJson] working in the directory [dir], and
    those of the release steps at the time [t], from the branch [head], for
    the version [version], with the body file in [prDir]. *)
Definition preflight_plan : list string :=
  ["git rev-parse --abbrev-ref HEAD"; "gh version"; "gh auth status";
   "jq --version"].

Definition diffJson_plan (repoRoot dir : string) : list string :=
  ["npm install web-features";
   "jq . "
     ++ Str.quoted
          (path_join [dir; "node_modules"; "web-features"; "index.json"]);
   "npm run build";
   "jq . "
     ++ Str.quoted (path_join [packages_web_features repoRoot; "index.json"]);
   "diff --unified "
     ++ Str.quoted (path_join [dir; "index.released.pretty.json"]) ++ " "
     ++ Str.quoted (path_join [dir; "index.prepared.pretty.json"])].

Definition release_plan (level : SemverLevel) (head : string) (t : Z)
    (version : option Json) (prDir : string) : list string :=
  ["git branch " ++ releaseBranchName t ++ " " ++ head;
   "git checkout " ++ releaseBranchName t;
   "npm version --no-git-tag-version " ++ level_name level;
   "git commit --all --message="
     ++ Str.quoted ("Increment " ++ level_name level ++ " version to v"
                      ++ template version);
   "git push --set-upstream origin " ++ releaseBranchName t;
   Str.join " "
     ["gh pr create";
      "--title="
        ++ Str.quoted ("📦 Release web-features@" ++ template version);
      "--reviewer=" ++ Str.quoted "ddbeck";
      "--body-file=" ++ path_join [prDir; "body.md"];
      "--repo=" ++ Str.quoted "ddbeck/feature-set";
      "--base=" ++ Str.quoted "main";
      "--head=" ++ Str.quoted (releaseBranchName t)]].

Definition init_plan (repoRoot : string) (level : SemverLevel)
    (head dir : string) (t : Z) (version : option Json) (prDir : string)
  : list string :=
  (preflight_plan ++ diffJson_plan repoRoot dir
     ++ release_plan level head t version prDir)%list.

(** ** More machines *)

Module Cases.

(** A manifest without a [version], and one that is [null]. *)
Definition namelessText : string :=
  "{" ++ Str.quoted "name" ++ ":" ++ Str.quoted "web-features" ++ "}".

Definition nullText : string := "null".

(** A [JSON.parse] that knows the manifests of these machines. *)
Definition parse (text : string) : JsError + Json :=
  if String.eqb text Demo.manifestText
  then inr (JObject [("name", JString "web-features");
                     ("version", JString "0.2.1")])
  else if String.eqb text namelessText
  then inr (JObject [("name", JString "web-features")])
  else if String.eqb text nullText then inr JNull
  else inl (SyntaxError "Unexpected token in JSON").

(** A machine as in [Demo], with the text of the manifest on its disk. *)
Definition os (m : Demo.Machine) (manifestOnDisk : string) : OS :=
  mkOS (os_exec (Demo.os m))
    (fun _ call =>
       match call with
       | MkdtempSync prefix => inr (prefix ++ "Xk3v9Q")
       | ReadFileSync _ => inr manifestOnDisk
       | _ => inr ""
       end)
    (os_now (Demo.os m)).

Definition run_init (m : Demo.Machine) (manifestOnDisk : string)
    (level : SemverLevel) : list Event * Outcome unit :=
  execute (os m manifestOnDisk) (init "/tmp" "/repo" parse (mkArgs level)).

Definition build_broken : Demo.Machine :=
  Demo.mkMachine "main" 1677675296789
    (Demo.fails "npm run build" (Demo.exited_inherit 2)).

Definition push_rejected : Demo.Machine :=
  Demo.mkMachine "main" 1677675296789
    (Demo.fails "git push" (Demo.exited_inherit 1)).

Definition truncatedText : string := "{".

(** A machine on which [git rev-parse] prints [main], a no-break space and a
    line feed. *)
Definition main_and_no_break_space : Demo.Machine :=
  Demo.mkMachine ("main" ++ Str.utf8 [194; 160]) 1677675296789
    (fun _ => None).

End Cases.

(** * Facts *)

(** ** [toISOString] on some dates *)

Example toISOString_epoch :
  JsDate.toISOString 0 = "1970-01-01T00:00:00.000Z".
Proof. reflexivity. Qed.

Example toISOString_2023 :
  JsDate.toISOString 1677675296789 = "2023-03-01T12:54:56.789Z".
Proof. reflexivity. Qed.

Example toISOString_leap_day :
  JsDate.toISOString 1709251199999 = "2024-02-29T23:59:59.999Z".
Proof. reflexivity. Qed.

Example toISOString_last_4_digit_year :
  JsDate.toISOString 253402300799999 = "9999-12-31T23:59:59.999Z".
Proof. reflexivity. Qed.

Example toISOString_year_10000 :
  JsDate.toISOString 253402300800000 = "+010000-01-01T00:00:00.000Z".
Proof. reflexivity. Qed.

Example toISOString_year_minus_1 :
  JsDate.toISOString (-62198755200000) = "-000001-01-01T00:00:00.000Z".
Proof. reflexivity. Qed.

Example toISOString_max :
  JsDate.toISOString JsDate.maxTime = "+275760-09-13T00:00:00.000Z".
Proof. reflexivity. Qed.

(** ** [trim] on some outputs of [git rev-parse] *)

Example trim_newline : Str.trim ("main" ++ Str.nl) = "main".
Proof. reflexivity. Qed.

Example trim_keeps_inner_space :
  Str.trim ("  " ++ "fix typo" ++ Str.nl ++ " ") = "fix typo".
Proof. reflexivity. Qed.

Example trim_no_break_space :
  Str.trim ("main" ++ Str.utf8 [194; 160] ++ Str.nl) = "main".
Proof. reflexivity. Qed.

Example trim_byte_order_mark_and_line_separator :
  Str.trim (Str.utf8 [239; 187; 191] ++ "main" ++ Str.utf8 [226; 128; 168])
  = "main".
Proof. reflexivity. Qed.

Example trim_ideographic_space :
  Str.trim (Str.utf8 [227; 128; 128] ++ "main" ++ Str.utf8 [226; 128; 138])
  = "main".
Proof. reflexivity. Qed.

(** U+00A1 and U+200B are no white space, and an accented letter that ends
    in the byte [A0] stays whole. *)
Example trim_keeps_other_characters :
  Str.trim ("main" ++ Str.utf8 [194; 161]) = "main" ++ Str.utf8 [194; 161] /\
  Str.trim ("main" ++ Str.utf8 [226; 128; 139])
  = "main" ++ Str.utf8 [226; 128; 139] /\
  Str.trim ("caf" ++ Str.utf8 [195; 160] ++ " ")
  = "caf" ++ Str.utf8 [195; 160].
Proof. repeat split; reflexivity. Qed.

(** There init takes the branch for [main]: it logs no warning and makes
    the release branch from [main]. *)
Example init_on_main_and_no_break_space :
  Forall (fun ev => is_warning ev = false)
    (fst (Demo.run_init Cases.main_and_no_break_space patch)) /\
  In "git branch release-20230301125456789 main"
    (commands (fst (Demo.run_init Cases.main_and_no_break_space patch))).
Proof.
  split.
  - vm_compute. repeat constructor.
  - vm_compute. repeat (first [left; reflexivity | right]).
Qed.

(** ** General facts about runs *)

Lemma interp_runs {A : Type} (os : OS) (p : Prog A) (past : list Event) :
  runs p (fst (interp os past p)) (snd (interp os past p)).
Proof.
  revert past.
  induction p as [a|e|c|cmd o k IH|c k IH|l a k IH|k IH]; intros past; simpl;
    try constructor.
  - specialize (IH (os_exec os past cmd o) (EvExec cmd o (os_exec os past cmd o) :: past)).
    destruct (interp os _ (k _)); simpl in *. now constructor.
  - specialize (IH (os_fs os past c) (EvFs c (os_fs os past c) :: past)).
    destruct (interp os _ (k _)); simpl in *. now constructor.
  - specialize (IH (EvLog l a :: past)).
    destruct (interp os _ k); simpl in *. now constructor.
  - specialize (IH (os_now os past) (EvDate (os_now os past) :: past)).
    destruct (interp os _ (k _)); simpl in *. now constructor.
Qed.

(** A program has a run, and one only on a given operating system: it always
    ends. *)
Lemma runs_total {A : Type} (p : Prog A) (os : OS) :
  exists tr out, runs p tr out.
Proof.
  exists (fst (execute os p)), (snd (execute os p)). apply interp_runs.
Qed.

Section Inversion.
Context {A : Type}.
Implicit Types (tr : list Event) (out : Outcome A).

Lemma runs_Ret_inv (a : A) tr out :
  runs (Ret a) tr out -> tr = [] /\ out = Returned a.
Proof. inversion 1; auto. Qed.

Lemma runs_Throw_inv e tr out :
  runs (Throw e) tr out -> tr = [] /\ out = Threw e.
Proof. inversion 1; auto. Qed.

Lemma runs_ProcessExit_inv c tr out :
  runs (ProcessExit c) tr out -> tr = [] /\ out = Exited c.
Proof. inversion 1; auto. Qed.

Lemma runs_ExecSync_inv cmd o k tr out :
  runs (ExecSync cmd o k) tr out ->
  exists r tr', tr = EvExec cmd o r :: tr' /\ runs (k r) tr' out.
Proof. inversion 1; subst; eauto. Qed.

Lemma runs_Fs_inv c k tr out :
  runs (Fs c k) tr out ->
  exists r tr', tr = EvFs c r :: tr' /\ runs (k r) tr' out.
Proof. inversion 1; subst; eauto. Qed.

Lemma runs_Logger_inv l a k tr out :
  runs (Logger l a k) tr out ->
  exists tr', tr = EvLog l a :: tr' /\ runs k tr' out.
Proof. inversion 1; subst; eauto. Qed.

Lemma runs_NewDate_inv k tr out :
  runs (NewDate k) tr out ->
  exists t tr', tr = EvDate t :: tr' /\ runs (k t) tr' out.
Proof. inversion 1; subst; eauto. Qed.
End Inversion.

(** ** Strings, dates and the release branch name *)

Module StrFacts.
Import Str.

Lemma append_assoc (a b c : string) : (a ++ b) ++ c = a ++ b ++ c.
Proof. induction a as [|x a IH]; simpl; [reflexivity|now rewrite IH]. Qed.

Lemma append_nil_r (a : string) : a ++ "" = a.
Proof. induction a as [|x a IH]; simpl; [reflexivity|now rewrite IH]. Qed.

Lemma all_chars_app p (a b : string) :
  all_chars p (a ++ b) = (all_chars p a && all_chars p b)%bool.
Proof.
  induction a as [|x a IH]; simpl; [reflexivity|].
  now rewrite IH, andb_assoc.
Qed.

Lemma drop_chars_app p (a b : string) :
  drop_chars p (a ++ b) = drop_chars p a ++ drop_chars p b.
Proof.
  induction a as [|x a IH]; simpl; [reflexivity|].
  destruct (p x); simpl; now rewrite IH.
Qed.

(** Dropping characters that a string does not have leaves it as it is. *)
Lemma drop_chars_none p q (s : string) :
  (forall c, q c = true -> p c = false) ->
  all_chars q s = true -> drop_chars p s = s.
Proof.
  intros Hpq. induction s as [|x s IH]; simpl; [reflexivity|].
  intros H. apply andb_prop in H as [Hx Hs].
  rewrite (Hpq x Hx). now rewrite IH.
Qed.

Lemma rev_app (a b : string) : rev (a ++ b) = rev b ++ rev a.
Proof.
  induction a as [|x a IH]; simpl.
  - now rewrite append_nil_r.
  - now rewrite IH, append_assoc.
Qed.

Lemma digit_not_separator c :
  is_digit c = true -> mem_char c "-T:.Z" = false.
Proof.
  destruct c as [[] [] [] [] [] [] [] []]; try reflexivity; discriminate.
Qed.
End StrFacts.

Module JsDateFacts.
Import Str StrFacts JsDate.

Lemma digit_is_digit n : is_digit (digit n) = true.
Proof.
  unfold digit.
  assert (H : (Z.to_nat (n mod 10) < 10)%nat).
  { pose proof (Z.mod_pos_bound n 10 eq_refl). lia. }
  destruct (Z.to_nat (n mod 10)) as [|[|[|[|[|[|[|[|[|[|k]]]]]]]]]];
    try reflexivity; lia.
Qed.

Lemma pad_digits w n : all_chars is_digit (pad w n) = true.
Proof.
  revert n. induction w as [|w IH]; intros n; cbn [pad]; [reflexivity|].
  rewrite all_chars_app, IH. cbn [all_chars andb]. now rewrite digit_is_digit.
Qed.

Lemma drop_pad w n :
  drop_chars (fun c => mem_char c "-T:.Z") (pad w n) = pad w n.
Proof.
  apply drop_chars_none with (q := is_digit).
  - apply digit_not_separator.
  - apply pad_digits.
Qed.

Ltac calendar :=
  unfold YearFromTime, civil, Day, msPerDay; cbn [fst snd];
  repeat match goal with
         | |- context [if ?a <? ?b then _ else _] =>
             destruct (Z.ltb_spec a b)
         | |- context [if ?a <=? ?b then _ else _] =>
             destruct (Z.leb_spec a b)
         end;
  Z.div_mod_to_equations; lia.

(** [YearFromTime] is the year ECMA-262 defines: the year whose first day
    is the last first day of a year not after [t]. *)
Lemma YearFromTime_spec t :
  DayFromYear (YearFromTime t) <= Day t < DayFromYear (YearFromTime t + 1).
Proof. unfold DayFromYear. calendar. Qed.

(** The year 10000 starts 253402300800000 ms after the epoch. *)
Lemma YearFromTime_before_10000 t :
  t < 253402300800000 -> YearFromTime t <= 9999.
Proof. intros H. calendar. Qed.

Lemma YearFromTime_from_10000 t :
  253402300800000 <= t -> 10000 <= YearFromTime t.
Proof. intros H. calendar. Qed.

Lemma compactRest_digits t : all_chars is_digit (compactRest t) = true.
Proof.
  unfold compactRest. now rewrite !all_chars_app, !pad_digits.
Qed.

Lemma compactISO_eq t :
  compactISO t
  = drop_chars (fun c => mem_char c "-T:.Z") (isoYear (YearFromTime t))
      ++ compactRest t.
Proof.
  unfold compactISO, toISOString, compactRest.
  rewrite !drop_chars_app, !drop_pad.
  change (drop_chars _ "-") with "".
  change (drop_chars _ "T") with "".
  change (drop_chars _ ":") with "".
  change (drop_chars _ ".") with "".
  change (drop_chars _ "Z") with "".
  cbn [append]. now rewrite append_nil_r.
Qed.
End JsDateFacts.

Module BranchName.
Import Str StrFacts JsDate JsDateFacts.

(** Up to the year 9999 the compact timestamp is made of digits. *)
Lemma compactISO_digits t :
  t < 253402300800000 -> all_chars is_digit (compactISO t) = true.
Proof.
  intros H. apply YearFromTime_before_10000 in H.
  rewrite compactISO_eq, all_chars_app, compactRest_digits, andb_true_r.
  unfold isoYear.
  destruct (Z.leb_spec 0 (YearFromTime t)); destruct (Z.leb_spec (YearFromTime t) 9999);
    cbn [andb]; try lia.
  - now rewrite drop_pad, pad_digits.
  - destruct (Z.ltb_spec (YearFromTime t) 0); try lia.
    rewrite drop_chars_app, drop_pad.
    change (drop_chars _ "-") with "". cbn [append]. apply pad_digits.
Qed.

(** From the year 10000 on it starts with a plus sign. *)
Lemma compactISO_plus t :
  253402300800000 <= t -> exists rest, compactISO t = String "+" rest.
Proof.
  intros H. apply YearFromTime_from_10000 in H.
  rewrite compactISO_eq. unfold isoYear.
  destruct (Z.leb_spec 0 (YearFromTime t)); destruct (Z.leb_spec (YearFromTime t) 9999);
    cbn [andb]; try lia.
  destruct (Z.ltb_spec (YearFromTime t) 0); try lia.
  rewrite drop_chars_app, drop_pad.
  change (drop_chars _ "+") with "+". cbn [append]. eauto.
Qed.

Lemma compactISO_digits_iff t :
  all_chars is_digit (compactISO t) = true <-> t < 253402300800000.
Proof.
  split; [|apply compactISO_digits].
  intros H. destruct (Z.lt_ge_cases t 253402300800000) as [|Hge]; [assumption|].
  apply compactISO_plus in Hge as [rest E]. rewrite E in H. discriminate H.
Qed.
End BranchName.

(** ** Runs of a sequence, and what occurs in a trace *)

(** A run of [p ;; f] is a run of [p] and, when [p] returns, a run of [f]
    after it. *)
Lemma runs_bind_inv {A B : Type} (p : Prog A) (f : A -> Prog B) tr out :
  runs (bind p f) tr out ->
  exists tr1 out1,
    runs p tr1 out1 /\
    match out1 with
    | Returned a => exists tr2, tr = (tr1 ++ tr2)%list /\ runs (f a) tr2 out
    | Threw e => tr = tr1 /\ out = Threw e
    | Exited c => tr = tr1 /\ out = Exited c
    end.
Proof.
  revert tr.
  induction p as [a|e|c|cmd o k IH|c k IH|l a k IH|k IH]; intros tr H;
    cbn [bind] in H.
  - exists [], (Returned a). split; [constructor|]. now exists tr.
  - apply runs_Throw_inv in H as [-> ->].
    exists [], (Threw e). split; [constructor|]. now split.
  - apply runs_ProcessExit_inv in H as [-> ->].
    exists [], (Exited c). split; [constructor|]. now split.
  - apply runs_ExecSync_inv in H as (r & tr' & -> & H).
    apply IH in H as (tr1 & out1 & H1 & H2).
    exists (EvExec cmd o r :: tr1), out1. split; [now constructor|].
    destruct out1; [destruct H2 as (tr2 & -> & H2); now exists tr2| |];
      destruct H2 as [-> ->]; now split.
  - apply runs_Fs_inv in H as (r & tr' & -> & H).
    apply IH in H as (tr1 & out1 & H1 & H2).
    exists (EvFs c r :: tr1), out1. split; [now constructor|].
    destruct out1; [destruct H2 as (tr2 & -> & H2); now exists tr2| |];
      destruct H2 as [-> ->]; now split.
  - apply runs_Logger_inv in H as (tr' & -> & H).
    apply IH in H as (tr1 & out1 & H1 & H2).
    exists (EvLog l a :: tr1), out1. split; [now constructor|].
    destruct out1; [destruct H2 as (tr2 & -> & H2); now exists tr2| |];
      destruct H2 as [-> ->]; now split.
  - apply runs_NewDate_inv in H as (t & tr' & -> & H).
    apply IH in H as (tr1 & out1 & H1 & H2).
    exists (EvDate t :: tr1), out1. split; [now constructor|].
    destruct out1; [destruct H2 as (tr2 & -> & H2); now exists tr2| |];
      destruct H2 as [-> ->]; now split.
Qed.

Lemma In_commands cmd o r tr : In (EvExec cmd o r) tr -> In cmd (commands tr).
Proof.
  induction tr as [|ev tr IH]; simpl; [tauto|].
  intros [->|H]; [now left|].
  destruct ev; simpl; auto.
Qed.

Lemma fs_calls_app tr1 tr2 :
  fs_calls (tr1 ++ tr2) = (fs_calls tr1 ++ fs_calls tr2)%list.
Proof.
  induction tr1 as [|ev tr1 IH]; simpl; [reflexivity|].
  destruct ev; simpl; now rewrite IH.
Qed.

Lemma consecutive_app_r l tr1 tr2 :
  consecutive l tr2 -> consecutive l (tr1 ++ tr2).
Proof.
  intros (b & a & ->). exists (tr1 ++ b)%list, a.
  now rewrite <- !app_assoc.
Qed.

Lemma starts_with_app p s :
  starts_with p s = true -> exists rest, s = p ++ rest.
Proof.
  unfold starts_with. revert s.
  induction p as [|c p IH]; intros s; simpl.
  - intros _. now exists s.
  - destruct s as [|d s]; cbn [String.prefix]; [discriminate|].
    destruct (Ascii.ascii_dec c d) as [->|]; intros H; [|discriminate H].
    apply IH in H as [rest ->]. now exists rest.
Qed.

(** Two strings that end differently are different. *)
Lemma different_end (a b x y : string) :
  (forall u v, Str.rev x ++ u <> Str.rev y ++ v) ->
  a ++ x <> b ++ y.
Proof.
  intros H E. apply (f_equal Str.rev) in E.
  rewrite !StrFacts.rev_app in E. now apply H in E.
Qed.

Lemma In_filter (sel : Event -> bool) (ev : Event) (tr : list Event) :
  In ev tr -> sel ev = true -> In ev (filter sel tr).
Proof. intros Hin Hsel. apply filter_In. now split. Qed.

Lemma status_is_true err n : status_is err n = true <-> err_status err = Some n.
Proof.
  unfold status_is. destruct (err_status err) as [s|]; split;
    try discriminate.
  - intros E. apply Z.eqb_eq in E. now subst.
  - intros [= ->]. apply Z.eqb_refl.
Qed.

(** ** Following the script along a run *)

Arguments Str.trim : simpl never.
Arguments Str.quoted : simpl never.
Arguments releaseBranchName : simpl never.
Arguments template : simpl never.
Arguments level_name : simpl never.
Arguments joinElement : simpl never.
Arguments status_is : simpl never.
Arguments destructure_version : simpl never.

Ltac unfold_calls H :=
  unfold run, execSync, mkdtempSync, readFileSync, writeFileSync,
    copyFileSync, appendFileSync, newDate, process_exit, logger_info,
    logger_debug, logger_warn, logger_log in H.

(** One call of the script at a time: the call becomes the next event of the
    trace, and the run splits on its answer where the script looks at it. *)
Ltac follow H :=
  unfold_calls H;
  repeat (
    cbn [bind try_catch throwing] in H;
    lazymatch type of H with
    | runs (Ret _) _ _ =>
        apply runs_Ret_inv in H; destruct H as [? ?]; subst
    | runs (Throw _) _ _ =>
        apply runs_Throw_inv in H; destruct H as [? ?]; subst
    | runs (ProcessExit _) _ _ =>
        apply runs_ProcessExit_inv in H; destruct H as [? ?]; subst
    | runs (ExecSync _ _ _) _ _ =>
        let r := fresh "r" in
        let tr := fresh "tr" in
        apply runs_ExecSync_inv in H; destruct H as (r & tr & ? & H); subst;
        destruct r as [?err|?out]
    | runs (Fs _ _) _ _ =>
        let r := fresh "r" in
        let tr := fresh "tr" in
        apply runs_Fs_inv in H; destruct H as (r & tr & ? & H); subst;
        destruct r as [?err|?res]
    | runs (Logger _ _ _) _ _ =>
        let tr := fresh "tr" in
        apply runs_Logger_inv in H; destruct H as (tr & ? & H); subst
    | runs (NewDate _) _ _ =>
        let t := fresh "t" in
        let tr := fresh "tr" in
        apply runs_NewDate_inv in H; destruct H as (t & tr & ? & H); subst
    | runs (bind (if ?c then _ else _) _) _ _ => destruct c eqn:?
    | runs (bind (match ?c with inl _ => _ | inr _ => _ end) _) _ _ =>
        destruct c eqn:?
    | runs (if ?c then _ else _) _ _ => destruct c eqn:?
    end).

Ltac same_event H :=
  injection H; intros; subst; clear H.

(** Membership in a trace that is known event by event: only the events
    that [sel] picks are looked at. *)
Ltac in_trace_by sel H :=
  apply (In_filter sel) in H; [|reflexivity || assumption];
  cbn in H;
  repeat (destruct H as [H|H]; [|]);
  try contradiction H;
  same_event H.

(** Goals about a trace that is known event by event. *)
Ltac here := repeat (first [left; reflexivity | right]).

Ltac split_at n :=
  lazymatch goal with
  | |- exists before logs, ?l = _ /\ _ =>
      exists (firstn n l), (skipn (S n) l); split; [reflexivity|]
  | |- consecutive ?l ?tr =>
      exists (firstn n tr), (skipn (n + List.length l) tr); reflexivity
  end.

Ltac find_split_from n fuel :=
  lazymatch fuel with
  | O => fail "no such split"
  | S ?fuel' => first [split_at n | find_split_from (S n) fuel']
  end.

Ltac find_split := find_split_from 0%nat 60%nat.

(** Two paths that end in different file names are different. *)
Ltac other_path :=
  cbn;
  let E := fresh "E" in
  intros E; injection E as E;
  refine (different_end _ _ _ _ _ E);
  let u := fresh "u" in
  let v := fresh "v" in
  let E' := fresh "E" in
  intros u v E'; cbn in E'; discriminate E'.

(** ** The three parts of init *)

Section Parts.
Variables (tmpdir repoRoot : string) (JSON_parse : string -> JsError + Json).
Variable args : Args.

Lemma init_inv tr out :
  runs (init tmpdir repoRoot JSON_parse args) tr out ->
  init_run tmpdir repoRoot JSON_parse args tr out.
Proof.
  intros H. unfold init in H.
  apply runs_bind_inv in H as (tr1 & o1 & H1 & H).
  destruct o1 as [head|e|c];
    [|destruct H as [-> ->]; now apply in_preflight with (o1 := Threw e)
     |destruct H as [-> ->]; now apply in_preflight with (o1 := Exited c)].
  destruct H as (tr' & -> & H).
  apply runs_bind_inv in H as (tr2 & o2 & H2 & H).
  destruct o2 as [diff|e|c];
    [|destruct H as [-> ->];
      now apply in_diffJson with (head := head) (tr1 := tr1) (tr2 := tr2)
                                 (o2 := Threw e)
     |destruct H as [-> ->];
      now apply in_diffJson with (head := head) (tr1 := tr1) (tr2 := tr2)
                                 (o2 := Exited c)].
  destruct H as (tr3 & -> & H).
  now apply in_release with (head := head) (diff := diff) (tr1 := tr1)
                            (tr2 := tr2) (tr3 := tr3).
Qed.

Lemma preflight_commands tr (out : Outcome string) :
  runs preflight tr out ->
  Forall (fun c => preflight_command c = true) (commands tr) /\
  fs_calls tr = [].
Proof.
  intros H. unfold preflight in H.
  follow H; split; try reflexivity; cbn [commands]; repeat constructor.
Qed.

Lemma diffJson_commands tr out :
  runs (diffJson tmpdir repoRoot) tr out ->
  Forall (fun c => diffJson_command c = true) (commands tr).
Proof.
  intros H. unfold diffJson in H.
  follow H; cbn [commands]; repeat constructor.
Qed.

Lemma release_commands head diff tr out :
  runs (release tmpdir repoRoot JSON_parse args head diff) tr out ->
  Forall (fun c => release_command c = true) (commands tr).
Proof.
  intros H. unfold release in H.
  follow H; cbn [commands]; repeat constructor.
Qed.

End Parts.

(** An event whose command a part cannot run is not in a run of that part. *)
Ltac not_its_command V Hin :=
  exfalso; apply In_commands in Hin;
  rewrite Forall_forall in V; apply V in Hin;
  cbn in Hin; discriminate Hin.

Ltac not_in_preflight H1 Hin :=
  let V := fresh "V" in
  pose proof (proj1 (preflight_commands H1)) as V; not_its_command V Hin.

Ltac not_in_diffJson H2 Hin :=
  let V := fresh "V" in
  pose proof (diffJson_commands H2) as V; not_its_command V Hin.

Ltac not_in_release H3 Hin :=
  let V := fresh "V" in
  pose proof (release_commands H3) as V; not_its_command V Hin.

(** Where in a run of init an event is: the goals are, in order, a run that
    ends in the preflight checks; one that ends in [diffJson], with the event
    in the first part, then in the second; one that reaches the release
    steps, with the event in the first, second and third part. *)
Ltac locate H Hin :=
  apply init_inv in H;
  destruct H as [o1 H1 Hs|head tr1 tr2 o2 H1 H2 Hs ->
                |head diff tr1 tr2 tr3 H1 H2 H3 ->];
  [|apply in_app_or in Hin as [Hin|Hin]
   |apply in_app_or in Hin as [Hin|Hin];
    [|apply in_app_or in Hin as [Hin|Hin]]].

(** ** The preflight checks of init *)

(** A failed [gh auth status] ends the preflight checks, and the process
    with them, after three commands. *)
Lemma preflight_unauthenticated [tr] [out : Outcome string] [o err] :
  runs preflight tr out ->
  In (EvExec "gh auth status" o (inl err)) tr ->
  out = Exited 1 /\
  commands tr
  = ["git rev-parse --abbrev-ref HEAD"; "gh version"; "gh auth status"].
Proof.
  intros H Hin. unfold preflight in H.
  follow H;
    in_trace_by (failed_exec_of (String.eqb "gh auth status")) Hin;
    now split.
Qed.

Lemma preflight_tool_failure [tr] [out : Outcome string] [cmd o err] :
  runs preflight tr out ->
  In (EvExec cmd o (inl err)) tr ->
  cmd = "gh version" \/ cmd = "gh auth status" \/ cmd = "jq --version" ->
  out = Exited 1 /\
  exists before logs,
    tr = (before ++ EvExec cmd o (inl err) :: logs)%list /\
    logs <> [] /\ Forall (fun ev => is_error_log ev = true) logs.
Proof.
  intros H Hin Hcmd. unfold preflight in H.
  destruct Hcmd as [-> | [-> | ->]].
  - follow H; in_trace_by (failed_exec_of (String.eqb "gh version")) Hin;
      (split; [reflexivity|]); find_split;
      (split; [discriminate|repeat constructor]).
  - follow H; in_trace_by (failed_exec_of (String.eqb "gh auth status")) Hin;
      (split; [reflexivity|]); find_split;
      (split; [discriminate|repeat constructor]).
  - follow H; in_trace_by (failed_exec_of (String.eqb "jq --version")) Hin;
      (split; [reflexivity|]); find_split;
      (split; [discriminate|repeat constructor]).
Qed.


(** ** The release steps of init *)

Section ReleaseSteps.
Variables (tmpdir repoRoot : string) (JSON_parse : string -> JsError + Json).
Variable args : Args.
Variables (head : string) (diff : JsVal).

Lemma release_branch [tr out cmd o r] :
  runs (release tmpdir repoRoot JSON_parse args head diff) tr out ->
  In (EvExec cmd o r) tr ->
  starts_with "git branch " cmd = true ->
  exists t,
    In (EvDate t) tr /\
    cmd = "git branch " ++ releaseBranchName t ++ " " ++ head.
Proof.
  intros H Hin Hcmd. unfold release in H.
  follow H; in_trace_by (exec_of (starts_with "git branch ")) Hin;
    eexists; (split; [here|reflexivity]).
Qed.

Lemma release_commit [tr out cmd o r] :
  runs (release tmpdir repoRoot JSON_parse args head diff) tr out ->
  In (EvExec cmd o r) tr ->
  starts_with "git commit " cmd = true ->
  exists bumped text json version,
    consecutive
      [EvExec
         ("npm version --no-git-tag-version "
            ++ level_name (semverlevel args))
         (mkExecOpts (Some (packages_web_features repoRoot)) None
            (Some "inherit"))
         (inr bumped);
       EvFs (ReadFileSync (manifest repoRoot)) (inr text)] tr /\
    JSON_parse text = inr json /\
    destructure_version json = inr version /\
    cmd = "git commit --all --message="
            ++ Str.quoted ("Increment " ++ level_name (semverlevel args)
                             ++ " version to v" ++ template version).
Proof.
  intros H Hin Hcmd. unfold release in H.
  follow H; in_trace_by (exec_of (starts_with "git commit ")) Hin;
    do 4 eexists; (split; [find_split|]);
    repeat split; try eassumption; reflexivity.
Qed.

Lemma release_pull_request [tr out cmd o r] :
  runs (release tmpdir repoRoot JSON_parse args head diff) tr out ->
  In (EvExec cmd o r) tr ->
  starts_with "gh pr create " cmd = true ->
  exists dir copied appended,
    consecutive
      [EvFs (MkdtempSync (path_join [tmpdir; "pull-request-"])) (inr dir);
       EvFs (CopyFileSync (bodyFile repoRoot) (path_join [dir; "body.md"]))
         (inr copied);
       EvFs (AppendFileSync (path_join [dir; "body.md"])
               (Str.join Str.nl ["```diff"; joinElement diff; "```"]))
         (inr appended);
       EvExec cmd o r] tr.
Proof.
  intros H Hin Hcmd. unfold release in H.
  follow H; in_trace_by (exec_of (starts_with "gh pr create ")) Hin;
    do 3 eexists; find_split.
Qed.

Lemma release_versions [tr] :
  runs (release tmpdir repoRoot JSON_parse args head diff) tr (Returned tt) ->
  exists bumped text again json version t dir committed opened,
    consecutive
      [EvExec
         ("npm version --no-git-tag-version " ++ level_name (semverlevel args))
         (mkExecOpts (Some (packages_web_features repoRoot)) None
            (Some "inherit"))
         (inr bumped);
       EvFs (ReadFileSync (manifest repoRoot)) (inr text);
       EvFs (ReadFileSync (manifest repoRoot)) (inr again);
       EvLog LDebug [JsString again]] tr /\
    JSON_parse text = inr json /\
    destructure_version json = inr version /\
    In (EvExec
          ("git commit --all --message="
             ++ Str.quoted ("Increment " ++ level_name (semverlevel args)
                              ++ " version to v" ++ template version))
          inherit (inr committed)) tr /\
    In (EvExec
          (Str.join " "
             ["gh pr create";
              "--title="
                ++ Str.quoted ("📦 Release web-features@"
                                 ++ template version);
              "--reviewer=" ++ Str.quoted "ddbeck";
              "--body-file=" ++ path_join [dir; "body.md"];
              "--repo=" ++ Str.quoted "ddbeck/feature-set";
              "--base=" ++ Str.quoted "main";
              "--head=" ++ Str.quoted (releaseBranchName t)])
          inherit (inr opened)) tr.
Proof.
  intros H. unfold release in H.
  follow H; try discriminate.
  do 9 eexists. split; [find_split|].
  repeat split; try eassumption; here.
Qed.

Lemma release_spares_template [tr out] :
  runs (release tmpdir repoRoot JSON_parse args head diff) tr out ->
  spares (bodyFile repoRoot) tr.
Proof.
  intros H. unfold release in H.
  follow H; unfold spares; cbn [fs_calls]; repeat constructor;
    try discriminate; other_path.
Qed.

End ReleaseSteps.

(** ** The diff producer, as init uses it *)

Section DiffProducer.
Variables (tmpdir repoRoot : string).

Lemma diffJson_returned [tr diff] :
  runs (diffJson tmpdir repoRoot) tr (Returned diff) ->
  exists cmd o r,
    In (EvExec cmd o r) tr /\
    starts_with "diff --unified " cmd = true /\
    diff = produced_diff r.
Proof.
  intros H. unfold diffJson in H.
  follow H; try discriminate;
    match goal with E : Returned _ = Returned _ |- _ => injection E as -> end;
    match goal with
    | |- context [EvExec ("diff --unified " ++ ?x) ?o ?r] =>
        exists ("diff --unified " ++ x), o, r
    end;
    (split; [here|split; reflexivity]).
Qed.

(** When the [diff] command fails, it is the last thing [diffJson] does;
    the exit status decides between returning and throwing. *)
Lemma diffJson_diff_failed [tr out cmd o err] :
  runs (diffJson tmpdir repoRoot) tr out ->
  In (EvExec cmd o (inl err)) tr ->
  starts_with "diff " cmd = true ->
  (exists before, tr = (before ++ [EvExec cmd o (inl err)])%list) /\
  out = if status_is err 1 then Returned (err_stdout err) else Threw err.
Proof.
  intros H Hin Hcmd. unfold diffJson in H.
  follow H; in_trace_by (failed_exec_of (starts_with "diff ")) Hin;
    (split; [eexists (_ :: _ :: _ :: _ :: _ :: _ :: _ :: []); reflexivity|]);
    match goal with E : status_is _ _ = _ |- _ => now rewrite E end.
Qed.

Lemma diffJson_spares_template [tr out] :
  runs (diffJson tmpdir repoRoot) tr out -> spares (bodyFile repoRoot) tr.
Proof.
  intros H. unfold diffJson in H.
  follow H; unfold spares; cbn [fs_calls]; repeat constructor;
    try discriminate; other_path.
Qed.

End DiffProducer.

Lemma preflight_spares path [tr] [out : Outcome string] :
  runs preflight tr out -> spares path tr.
Proof.
  intros H. unfold spares. rewrite (proj2 (preflight_commands H)).
  constructor.
Qed.

Lemma spares_app path tr1 tr2 :
  spares path tr1 -> spares path tr2 -> spares path (tr1 ++ tr2).
Proof.
  unfold spares. intros H1 H2. rewrite fs_calls_app.
  apply Forall_app. now split.
Qed.

Lemma release_starts_with_date tmpdir repoRoot JSON_parse args head diff
    [tr out] :
  runs (release tmpdir repoRoot JSON_parse args head diff) tr out ->
  exists t rest, tr = EvDate t :: rest.
Proof.
  intros H. unfold release, newDate in H. cbn [bind] in H.
  apply runs_NewDate_inv in H as (t & rest & -> & _). eauto.
Qed.

(** What the status of a failed [diff] means for init as a whole: with
    status 1 the run goes on to the release steps, which start by reading
    the clock; with another status init throws the same error, and the
    [diff] command is the last thing it did. *)
Lemma init_diff_exit_status
    (tmpdir repoRoot : string) (JSON_parse : string -> JsError + Json)
    (args : Args) (tr : list Event) (out : Outcome unit)
    (cmd : string) (o : ExecOpts) (err : JsError) :
  runs (init tmpdir repoRoot JSON_parse args) tr out ->
  In (EvExec cmd o (inl err)) tr ->
  starts_with "diff " cmd = true ->
  (err_status err = Some 1 ->
   exists t, consecutive [EvExec cmd o (inl err); EvDate t] tr) /\
  (forall n, err_status err = Some n -> n <> 1 ->
   out = Threw err /\
   exists before, tr = (before ++ [EvExec cmd o (inl err)])%list).
Proof.
  intros H Hin Hcmd. destruct (starts_with_app _ _ Hcmd) as [rest E].
  locate H Hin.
  - subst cmd. not_in_preflight H1 Hin.
  - subst cmd. not_in_preflight H1 Hin.
  - destruct (diffJson_diff_failed H2 Hin Hcmd) as [[before ->] ->].
    split.
    + intros E1. apply status_is_true in E1. rewrite E1 in Hs. destruct Hs.
    + intros n En Hn. destruct (status_is err 1) eqn:E1.
      * apply status_is_true in E1. congruence.
      * split; [exact Hs|]. exists (tr1 ++ before)%list.
        now rewrite app_assoc.
  - subst cmd. not_in_preflight H1 Hin.
  - destruct (diffJson_diff_failed H2 Hin Hcmd) as [[before ->] Hout].
    destruct (release_starts_with_date H3) as (t & rest' & ->).
    split.
    + intros _. exists t, (tr1 ++ before)%list, rest'.
      now rewrite <- !app_assoc.
    + intros n En Hn. destruct (status_is err 1) eqn:E1.
      * apply status_is_true in E1. congruence.
      * discriminate Hout.
  - subst cmd. not_in_release H3 Hin.
Qed.

(** * The claims *)

(** C1: in a run of [diffJson] in which the [diff] command failed with the
    error [err]: when its exit status is 1 the producer returns normally, and
    what it returns is the captured standard output [err.stdout]; when its
    exit status is another number the producer throws [err] itself. *)
Theorem diffJson_diff_exit_status
    (tmpdir repoRoot : string) (tr : list Event) (out : Outcome JsVal)
    (cmd : string) (o : ExecOpts) (err : JsError) :
  runs (diffJson tmpdir repoRoot) tr out ->
  In (EvExec cmd o (inl err)) tr ->
  starts_with "diff " cmd = true ->
  (err_status err = Some 1 -> out = Returned (err_stdout err)) /\
  (forall n, err_status err = Some n -> n <> 1 -> out = Threw err).
Proof.
  intros H Hin Hcmd.
  destruct (diffJson_diff_failed H Hin Hcmd) as [_ ->].
  split.
  - intros E1. apply status_is_true in E1. now rewrite E1.
  - intros n En Hn. destruct (status_is err 1) eqn:E1; [|reflexivity].
    apply status_is_true in E1. congruence.
Qed.

(** C9: however a run of [diffJson] ends (it returns the output of [diff],
    it returns [err.stdout] after exit status 1, or it throws), no event of
    it removes anything: there is no [rmSync], and no command that it starts
    is [rm], [rmdir] or [unlink].  The temporary directory stays. *)
Theorem diffJson_never_cleans_up
    (tmpdir repoRoot : string) (tr : list Event) (out : Outcome JsVal) :
  runs (diffJson tmpdir repoRoot) tr out ->
  Forall (fun ev => removes ev = false) tr.
Proof.
  intros H. unfold diffJson in H.
  follow H; repeat constructor.
Qed.

(** C2: when [gh auth status] fails, init ends the process with exit code 1,
    and all it has run by then is the three queries [git rev-parse
    --abbrev-ref HEAD], [gh version] and [gh auth status]; it has not touched
    the file system.  So no branch was made and nothing was committed, pushed
    or opened as a pull request. *)
Theorem init_unauthenticated_halts
    (tmpdir repoRoot : string) (JSON_parse : string -> JsError + Json)
    (args : Args) (tr : list Event) (out : Outcome unit)
    (o : ExecOpts) (err : JsError) :
  runs (init tmpdir repoRoot JSON_parse args) tr out ->
  In (EvExec "gh auth status" o (inl err)) tr ->
  out = Exited 1 /\
  commands tr
  = ["git rev-parse --abbrev-ref HEAD"; "gh version"; "gh auth status"] /\
  fs_calls tr = [].
Proof.
  intros H Hin. locate H Hin.
  - destruct (preflight_unauthenticated H1 Hin) as [-> Hc].
    repeat split; [exact Hs|exact Hc|apply (preflight_commands H1)].
  - now destruct (preflight_unauthenticated H1 Hin).
  - not_in_diffJson H2 Hin.
  - now destruct (preflight_unauthenticated H1 Hin).
  - not_in_diffJson H2 Hin.
  - not_in_release H3 Hin.
Qed.

(** C6: when [gh version], [gh auth status] or [jq --version] fails during
    the preflight checks, all that init does after it is log at error
    severity, at least once, and then it ends the process with exit code 1
    ([process.exit(1)]). *)
Theorem preflight_tool_failure_exits
    (tmpdir repoRoot : string) (JSON_parse : string -> JsError + Json)
    (args : Args) (tr : list Event) (out : Outcome unit)
    (cmd : string) (o : ExecOpts) (err : JsError) :
  runs (init tmpdir repoRoot JSON_parse args) tr out ->
  In (EvExec cmd o (inl err)) tr ->
  cmd = "gh version" \/ cmd = "gh auth status" \/ cmd = "jq --version" ->
  out = Exited 1 /\
  exists before logs,
    tr = (before ++ EvExec cmd o (inl err) :: logs)%list /\
    logs <> [] /\ Forall (fun ev => is_error_log ev = true) logs.
Proof.
  intros H Hin Hcmd. locate H Hin.
  - destruct (preflight_tool_failure H1 Hin Hcmd) as [-> Hlogs].
    split; [exact Hs|exact Hlogs].
  - now destruct (preflight_tool_failure H1 Hin Hcmd).
  - destruct Hcmd as [-> | [-> | ->]]; not_in_diffJson H2 Hin.
  - now destruct (preflight_tool_failure H1 Hin Hcmd).
  - destruct Hcmd as [-> | [-> | ->]]; not_in_diffJson H2 Hin.
  - destruct Hcmd as [-> | [-> | ->]]; not_in_release H3 Hin.
Qed.


(** C5: whatever the argument, [update] and [publish] make no call at all (no
    child process, no file written) and throw the error "Not implemented":
    that is their only run. *)
Theorem update_publish_not_implemented
    (T : Type) (args : T) (tr : list Event) (out : Outcome unit) :
  (runs (update args) tr out <->
   tr = [] /\ out = Threw (Error "Not implemented")) /\
  (runs (publish args) tr out <->
   tr = [] /\ out = Threw (Error "Not implemented")).
Proof.
  split; split.
  - intros H. unfold update in H. follow H. auto.
  - intros [-> ->]. constructor.
  - intros H. unfold publish in H. follow H. auto.
  - intros [-> ->]. constructor.
Qed.

(** C3, as the script has it: when init runs [git branch], the branch it
    names is [release-] followed by the ISO 8601 form of the time it read
    from the clock with every [-], [T], [:], [.] and [Z] dropped; and when
    that time is before the year 10000 (253402300800000 ms after the epoch),
    what follows [release-] is made of digits only. *)
Theorem release_branch_name
    (tmpdir repoRoot : string) (JSON_parse : string -> JsError + Json)
    (args : Args) (tr : list Event) (out : Outcome unit)
    (cmd : string) (o : ExecOpts) (r : JsError + string) :
  runs (init tmpdir repoRoot JSON_parse args) tr out ->
  In (EvExec cmd o r) tr ->
  starts_with "git branch " cmd = true ->
  exists t head name,
    In (EvDate t) tr /\
    cmd = "git branch release-" ++ name ++ " " ++ head /\
    name = Str.drop_chars (fun c => Str.mem_char c "-T:.Z")
             (JsDate.toISOString t) /\
    (t < 253402300800000 -> Str.all_chars Str.is_digit name = true).
Proof.
  intros H Hin Hcmd. destruct (starts_with_app _ _ Hcmd) as [rest E].
  locate H Hin.
  1, 2, 4: subst cmd; not_in_preflight H1 Hin.
  1, 2: subst cmd; not_in_diffJson H2 Hin.
  destruct (release_branch H3 Hin Hcmd) as (t & Ht & ->).
  exists t, head, (compactISO t). repeat split.
  - apply in_or_app. right. apply in_or_app. now right.
  - apply BranchName.compactISO_digits.
Qed.

(** C4: when init runs [git commit], for whichever of the four levels, the
    message is [Increment <level> version to v<version>], where [<level>] is
    the level it was given and [<version>] is the [version] property of the
    manifest as read right after the version bump and parsed; a [version]
    that is a string stands in the message as it is. *)
Theorem commit_message
    (tmpdir repoRoot : string) (JSON_parse : string -> JsError + Json)
    (args : Args) (tr : list Event) (out : Outcome unit)
    (cmd : string) (o : ExecOpts) (r : JsError + string) :
  runs (init tmpdir repoRoot JSON_parse args) tr out ->
  In (EvExec cmd o r) tr ->
  starts_with "git commit " cmd = true ->
  exists bumped text json version,
    consecutive
      [EvExec
         ("npm version --no-git-tag-version " ++ level_name (semverlevel args))
         (mkExecOpts (Some (packages_web_features repoRoot)) None
            (Some "inherit"))
         (inr bumped);
       EvFs (ReadFileSync (manifest repoRoot)) (inr text)] tr /\
    JSON_parse text = inr json /\
    destructure_version json = inr version /\
    cmd = "git commit --all --message="
            ++ Str.quoted ("Increment " ++ level_name (semverlevel args)
                             ++ " version to v" ++ template version) /\
    (forall v, version = Some (JString v) -> template version = v).
Proof.
  intros H Hin Hcmd. destruct (starts_with_app _ _ Hcmd) as [rest E].
  locate H Hin.
  1, 2, 4: subst cmd; not_in_preflight H1 Hin.
  1, 2: subst cmd; not_in_diffJson H2 Hin.
  destruct (release_commit H3 Hin Hcmd)
    as (bumped & text & json & version & Hc & Hp & Hv & Hm).
  exists bumped, text, json, version. repeat split; try assumption.
  - now do 2 apply consecutive_app_r.
  - now intros v ->.
Qed.

(** C8: when init runs [gh pr create], no call it has made to the file
    system writes to the description template or removes it; the template
    is the source of one copy, into [body.md] in the directory that
    [mkdtempSync] has just made, and the diff that [diffJson] produced,
    between a line [```diff] and a line [```], is appended to that copy,
    which is the body file of the pull request. *)
Theorem template_only_copied
    (tmpdir repoRoot : string) (JSON_parse : string -> JsError + Json)
    (args : Args) (tr : list Event) (out : Outcome unit)
    (cmd : string) (o : ExecOpts) (r : JsError + string) :
  runs (init tmpdir repoRoot JSON_parse args) tr out ->
  In (EvExec cmd o r) tr ->
  starts_with "gh pr create " cmd = true ->
  spares (bodyFile repoRoot) tr /\
  exists diffCmd diffOpts diffAnswer dir copied appended,
    In (EvExec diffCmd diffOpts diffAnswer) tr /\
    starts_with "diff --unified " diffCmd = true /\
    consecutive
      [EvFs (MkdtempSync (path_join [tmpdir; "pull-request-"])) (inr dir);
       EvFs (CopyFileSync (bodyFile repoRoot) (path_join [dir; "body.md"]))
         (inr copied);
       EvFs (AppendFileSync (path_join [dir; "body.md"])
               (Str.join Str.nl
                  ["```diff"; joinElement (produced_diff diffAnswer); "```"]))
         (inr appended);
       EvExec cmd o r] tr.
Proof.
  intros H Hin Hcmd. destruct (starts_with_app _ _ Hcmd) as [rest E].
  locate H Hin.
  1, 2, 4: subst cmd; not_in_preflight H1 Hin.
  1, 2: subst cmd; not_in_diffJson H2 Hin.
  split.
  - apply spares_app; [apply (preflight_spares _ H1)|].
    apply spares_app;
      [apply (diffJson_spares_template H2)|apply (release_spares_template H3)].
  - destruct (diffJson_returned H2) as (dc & dopts & dr & Hd & Hdc & ->).
    destruct (release_pull_request H3 Hin Hcmd) as (dir & c & a & Hc).
    exists dc, dopts, dr, dir, c, a. repeat split; try assumption.
    + apply in_or_app. right. apply in_or_app. now left.
    + now do 2 apply consecutive_app_r.
Qed.

(** C10: in a run of init that completes, the manifest is read twice right
    after the bump, and it is the first text that is parsed (the second is
    only logged); the [version] of that one parse is the version in the
    message of the commit and the version in the title of the pull
    request. *)
Theorem one_version_in_commit_and_title
    (tmpdir repoRoot : string) (JSON_parse : string -> JsError + Json)
    (args : Args) (tr : list Event) :
  runs (init tmpdir repoRoot JSON_parse args) tr (Returned tt) ->
  exists bumped text again json version t dir committed opened,
    consecutive
      [EvExec
         ("npm version --no-git-tag-version " ++ level_name (semverlevel args))
         (mkExecOpts (Some (packages_web_features repoRoot)) None
            (Some "inherit"))
         (inr bumped);
       EvFs (ReadFileSync (manifest repoRoot)) (inr text);
       EvFs (ReadFileSync (manifest repoRoot)) (inr again);
       EvLog LDebug [JsString again]] tr /\
    JSON_parse text = inr json /\
    destructure_version json = inr version /\
    In (EvExec
          ("git commit --all --message="
             ++ Str.quoted ("Increment " ++ level_name (semverlevel args)
                              ++ " version to v" ++ template version))
          inherit (inr committed)) tr /\
    In (EvExec
          (Str.join " "
             ["gh pr create";
              "--title="
                ++ Str.quoted ("📦 Release web-features@" ++ template version);
              "--reviewer=" ++ Str.quoted "ddbeck";
              "--body-file=" ++ path_join [dir; "body.md"];
              "--repo=" ++ Str.quoted "ddbeck/feature-set";
              "--base=" ++ Str.quoted "main";
              "--head=" ++ Str.quoted (releaseBranchName t)])
          inherit (inr opened)) tr.
Proof.
  intros H. apply init_inv in H.
  destruct H as [o1 H1 Hs|head tr1 tr2 o2 H1 H2 Hs ->
                |head diff tr1 tr2 tr3 H1 H2 H3 ->].
  - destruct o1; [destruct Hs|discriminate Hs|discriminate Hs].
  - destruct o2; [destruct Hs|discriminate Hs|discriminate Hs].
  - destruct (release_versions H3)
      as (bumped & text & again & json & version & t & dir & c1 & c2
          & Hc & Hp & Hv & Hcommit & Hpr).
    exists bumped, text, again, json, version, t, dir, c1, c2.
    repeat split; try assumption.
    + now do 2 apply consecutive_app_r.
    + apply in_or_app. right. apply in_or_app. now right.
    + apply in_or_app. right. apply in_or_app. now right.
Qed.

(** ** The theorems at work on the demonstration machines *)

Ltac in_run := vm_compute; repeat (first [left; reflexivity | right]).

Lemma demo_init_runs (m : Demo.Machine) (level : SemverLevel) :
  runs (init "/tmp" "/repo" Demo.parse (mkArgs level))
    (fst (Demo.run_init m level)) (snd (Demo.run_init m level)).
Proof. apply interp_runs. Qed.

Lemma demo_diffJson_runs (m : Demo.Machine) :
  runs (diffJson "/tmp" "/repo")
    (fst (Demo.run_diffJson m)) (snd (Demo.run_diffJson m)).
Proof. apply interp_runs. Qed.

Lemma diffJson_diff_exit_status_witness :
  snd (Demo.run_diffJson Demo.with_differences)
  = Returned (JsString Demo.differences).
Proof.
  refine (proj1
            (@diffJson_diff_exit_status "/tmp" "/repo"
               (fst (Demo.run_diffJson Demo.with_differences))
               (snd (Demo.run_diffJson Demo.with_differences))
               Demo.diffCmd utf8
               (ChildProcessError (Demo.exited 1 Demo.differences))
               (demo_diffJson_runs _) _ _) _).
  - in_run.
  - reflexivity.
  - reflexivity.
Defined.

Lemma init_unauthenticated_halts_witness :
  snd (Demo.run_init Demo.logged_out patch) = Exited 1 /\
  commands (fst (Demo.run_init Demo.logged_out patch))
  = ["git rev-parse --abbrev-ref HEAD"; "gh version"; "gh auth status"] /\
  fs_calls (fst (Demo.run_init Demo.logged_out patch)) = [].
Proof.
  apply (@init_unauthenticated_halts "/tmp" "/repo" Demo.parse (mkArgs patch)
           _ _ inherit (ChildProcessError (Demo.exited_inherit 1))
           (demo_init_runs _ _)).
  in_run.
Defined.

Lemma release_branch_name_witness :
  exists t head name,
    In (EvDate t) (fst (Demo.run_init Demo.healthy patch)) /\
    "git branch release-20230301125456789 main"
    = "git branch release-" ++ name ++ " " ++ head /\
    name = Str.drop_chars (fun c => Str.mem_char c "-T:.Z")
             (JsDate.toISOString t) /\
    (t < 253402300800000 -> Str.all_chars Str.is_digit name = true).
Proof.
  apply (@release_branch_name "/tmp" "/repo" Demo.parse (mkArgs patch)
           _ _ "git branch release-20230301125456789 main" inherit (inr "")
           (demo_init_runs _ _)).
  - in_run.
  - reflexivity.
Defined.

Lemma commit_message_witness :
  exists bumped text json version,
    consecutive
      [EvExec "npm version --no-git-tag-version minor"
         (mkExecOpts (Some (packages_web_features "/repo")) None
            (Some "inherit"))
         (inr bumped);
       EvFs (ReadFileSync (manifest "/repo")) (inr text)]
      (fst (Demo.run_init Demo.healthy minor)) /\
    Demo.parse text = inr json /\
    destructure_version json = inr version /\
    Demo.commitCmd minor
    = "git commit --all --message="
        ++ Str.quoted ("Increment " ++ "minor" ++ " version to v"
                         ++ template version) /\
    (forall v, version = Some (JString v) -> template version = v).
Proof.
  apply (@commit_message "/tmp" "/repo" Demo.parse (mkArgs minor)
           _ _ (Demo.commitCmd minor) inherit (inr "")
           (demo_init_runs _ _)).
  - in_run.
  - reflexivity.
Defined.

Lemma update_publish_not_implemented_witness :
  fst (execute (Demo.os Demo.healthy) (publish (JsString "42"))) = [] /\
  snd (execute (Demo.os Demo.healthy) (publish (JsString "42")))
  = Threw (Error "Not implemented").
Proof.
  apply (proj1 (proj2 (update_publish_not_implemented (JsString "42") _ _))).
  apply interp_runs.
Defined.

Lemma preflight_tool_failure_exits_witness :
  snd (Demo.run_init Demo.without_jq patch) = Exited 1 /\
  exists before logs,
    fst (Demo.run_init Demo.without_jq patch)
    = (before
         ++ EvExec "jq --version" no_opts
              (inl (ChildProcessError (Demo.exited 127 ""))) :: logs)%list /\
    logs <> [] /\ Forall (fun ev => is_error_log ev = true) logs.
Proof.
  apply (@preflight_tool_failure_exits "/tmp" "/repo" Demo.parse
           (mkArgs patch) _ _ "jq --version" no_opts
           (ChildProcessError (Demo.exited 127 ""))
           (demo_init_runs _ _)).
  - in_run.
  - right. right. reflexivity.
Defined.


Lemma template_only_copied_witness :
  spares (bodyFile "/repo") (fst (Demo.run_init Demo.with_differences patch)) /\
  exists diffCmd diffOpts diffAnswer dir copied appended,
    In (EvExec diffCmd diffOpts diffAnswer)
      (fst (Demo.run_init Demo.with_differences patch)) /\
    starts_with "diff --unified " diffCmd = true /\
    consecutive
      [EvFs (MkdtempSync (path_join ["/tmp"; "pull-request-"])) (inr dir);
       EvFs (CopyFileSync (bodyFile "/repo") (path_join [dir; "body.md"]))
         (inr copied);
       EvFs (AppendFileSync (path_join [dir; "body.md"])
               (Str.join Str.nl
                  ["```diff"; joinElement (produced_diff diffAnswer); "```"]))
         (inr appended);
       EvExec Demo.pullRequestCmd inherit (inr "")]
      (fst (Demo.run_init Demo.with_differences patch)).
Proof.
  apply (@template_only_copied "/tmp" "/repo" Demo.parse (mkArgs patch)
           _ _ Demo.pullRequestCmd inherit (inr "") (demo_init_runs _ _)).
  - in_run.
  - reflexivity.
Defined.

Lemma diffJson_never_cleans_up_witness :
  Forall (fun ev => removes ev = false)
    (fst (Demo.run_diffJson Demo.diff_trouble)).
Proof.
  apply (@diffJson_never_cleans_up "/tmp" "/repo" _ _ (demo_diffJson_runs _)).
Defined.

Lemma demo_healthy_returns :
  snd (Demo.run_init Demo.healthy patch) = Returned tt.
Proof. vm_compute. reflexivity. Qed.

Lemma one_version_in_commit_and_title_witness :
  exists bumped text again json version t dir committed opened,
    consecutive
      [EvExec "npm version --no-git-tag-version patch"
         (mkExecOpts (Some (packages_web_features "/repo")) None
            (Some "inherit"))
         (inr bumped);
       EvFs (ReadFileSync (manifest "/repo")) (inr text);
       EvFs (ReadFileSync (manifest "/repo")) (inr again);
       EvLog LDebug [JsString again]]
      (fst (Demo.run_init Demo.healthy patch)) /\
    Demo.parse text = inr json /\
    destructure_version json = inr version /\
    In (EvExec
          ("git commit --all --message="
             ++ Str.quoted ("Increment " ++ "patch" ++ " version to v"
                              ++ template version))
          inherit (inr committed))
      (fst (Demo.run_init Demo.healthy patch)) /\
    In (EvExec
          (Str.join " "
             ["gh pr create";
              "--title="
                ++ Str.quoted ("📦 Release web-features@" ++ template version);
              "--reviewer=" ++ Str.quoted "ddbeck";
              "--body-file=" ++ path_join [dir; "body.md"];
              "--repo=" ++ Str.quoted "ddbeck/feature-set";
              "--base=" ++ Str.quoted "main";
              "--head=" ++ Str.quoted (releaseBranchName t)])
          inherit (inr opened))
      (fst (Demo.run_init Demo.healthy patch)).
Proof.
  apply (@one_version_in_commit_and_title "/tmp" "/repo" Demo.parse
           (mkArgs patch)).
  pose proof (demo_init_runs Demo.healthy patch) as R.
  rewrite demo_healthy_returns in R. exact R.
Defined.

(** C3 does not hold for every time on the clock: on a machine whose clock
    says 1 January 10000, init runs
    [git branch release-+0100000101000000000 main], and a plus sign is no
    digit. *)
Lemma release_branch_name_not_always_digits :
  ~ (forall (tmpdir repoRoot : string) (JSON_parse : string -> JsError + Json)
       (args : Args) (tr : list Event) (out : Outcome unit)
       (cmd : string) (o : ExecOpts) (r : JsError + string),
        runs (init tmpdir repoRoot JSON_parse args) tr out ->
        In (EvExec cmd o r) tr ->
        starts_with "git branch " cmd = true ->
        exists t head name,
          In (EvDate t) tr /\
          cmd = "git branch release-" ++ name ++ " " ++ head /\
          name = Str.drop_chars (fun c => Str.mem_char c "-T:.Z")
                   (JsDate.toISOString t) /\
          Str.all_chars Str.is_digit name = true).
Proof.
  intros C.
  destruct (C "/tmp" "/repo" Demo.parse (mkArgs patch)
              (fst (Demo.run_init Demo.in_year_10000 patch))
              (snd (Demo.run_init Demo.in_year_10000 patch))
              "git branch release-+0100000101000000000 main" inherit (inr "")
              (demo_init_runs _ _))
    as (t & head & name & _ & Hcmd & _ & Hdigits).
  - in_run.
  - reflexivity.
  - destruct name as [|c name]; cbn in Hcmd; [discriminate Hcmd|].
    injection Hcmd as <- _. discriminate Hdigits.
Qed.

(** * Further properties of the script *)

(** ** Tools *)

Lemma consecutive_In [l tr ev] : consecutive l tr -> In ev l -> In ev tr.
Proof.
  intros (b & a & ->) H. apply in_or_app. right. apply in_or_app. now left.
Qed.

Lemma commands_app tr1 tr2 :
  commands (tr1 ++ tr2) = (commands tr1 ++ commands tr2)%list.
Proof.
  induction tr1 as [|ev tr1 IH]; simpl; [reflexivity|].
  destruct ev; simpl; now rewrite IH.
Qed.

Lemma In_fs_calls c r tr : In (EvFs c r) tr -> In c (fs_calls tr).
Proof.
  induction tr as [|ev tr IH]; simpl; [tauto|].
  intros [->|H]; [now left|].
  destruct ev; simpl; auto.
Qed.

Lemma starts_with_refl_app p s : starts_with p (p ++ s) = true.
Proof.
  unfold starts_with. induction p as [|c p IH]; simpl.
  - now destruct s.
  - destruct (Ascii.ascii_dec c c) as [_|N]; [exact IH|now elim N].
Qed.

Lemma starts_with_dir d s : starts_with (d ++ "/") (d ++ "/" ++ s) = true.
Proof. rewrite <- StrFacts.append_assoc. apply starts_with_refl_app. Qed.

(** An event of a trace that is known event by event, picked by [sel]; the
    event itself is a variable. *)
Ltac this_event sel H :=
  apply (In_filter sel) in H; [|assumption];
  cbn in H;
  repeat (destruct H as [H|H]; [|]);
  try contradiction H;
  try subst.

(** The trace ends with its last event. *)
Ltac ends_here :=
  lazymatch goal with
  | |- exists before, ?l = _ => exists (removelast l); reflexivity
  end.

Lemma failing_failure ev err : failure_of ev = Some err -> failing ev = true.
Proof. unfold failing. now intros ->. Qed.

Section Failures.
Variables (tmpdir repoRoot : string) (JSON_parse : string -> JsError + Json).
Variable args : Args.

Lemma preflight_failure [tr] [out : Outcome string] [ev err] :
  runs preflight tr out ->
  In ev tr ->
  failure_of ev = Some err ->
  handled ev = false ->
  out = Threw err /\ exists before, tr = (before ++ [ev])%list.
Proof.
  intros H Hin Hf Hh. pose proof (failing_failure _ Hf) as Hsel.
  unfold preflight in H.
  follow H; this_event failing Hin; try discriminate Hh;
    injection Hf as <-; (split; [reflexivity|ends_here]).
Qed.

Lemma diffJson_failure [tr out ev err] :
  runs (diffJson tmpdir repoRoot) tr out ->
  In ev tr ->
  failure_of ev = Some err ->
  handled ev = false ->
  out = Threw err /\ exists before, tr = (before ++ [ev])%list.
Proof.
  intros H Hin Hf Hh. pose proof (failing_failure _ Hf) as Hsel.
  unfold diffJson in H.
  follow H; this_event failing Hin; injection Hf as <-;
    try (cbn in Hh; congruence);
    (split; [reflexivity|ends_here]).
Qed.

Lemma release_failure head diff [tr out ev err] :
  runs (release tmpdir repoRoot JSON_parse args head diff) tr out ->
  In ev tr ->
  failure_of ev = Some err ->
  out = Threw err /\ exists before, tr = (before ++ [ev])%list.
Proof.
  intros H Hin Hf. pose proof (failing_failure _ Hf) as Hsel.
  unfold release in H.
  follow H; this_event failing Hin; injection Hf as <-;
    (split; [reflexivity|ends_here]).
Qed.

End Failures.

(** ** Failures that nothing catches *)

(** X1: when a call of [diffJson] fails (making the directory, the install,
    a [jq], a write, the build, or a [diff] that exits with another status
    than 1), [diffJson] throws the error of that call, and the call is the
    last thing it did. *)
Theorem diffJson_step_failure_propagates
    (tmpdir repoRoot : string) (tr : list Event) (out : Outcome JsVal)
    (ev : Event) (err : JsError) :
  runs (diffJson tmpdir repoRoot) tr out ->
  In ev tr ->
  failure_of ev = Some err ->
  handled ev = false ->
  out = Threw err /\ exists before, tr = (before ++ [ev])%list.
Proof.
  intros H Hin Hf Hh. exact (diffJson_failure H Hin Hf Hh).
Qed.

(** X2: when a call of init fails and it is neither a tool probe nor a
    [diff] that exits with status 1, init throws the error of that call and
    the call is the last thing it did: nothing is retried, nothing is undone,
    and the process is not ended by [process.exit]. *)
Theorem init_failure_propagates
    (tmpdir repoRoot : string) (JSON_parse : string -> JsError + Json)
    (args : Args) (tr : list Event) (out : Outcome unit)
    (ev : Event) (err : JsError) :
  runs (init tmpdir repoRoot JSON_parse args) tr out ->
  In ev tr ->
  failure_of ev = Some err ->
  handled ev = false ->
  out = Threw err /\ exists before, tr = (before ++ [ev])%list.
Proof.
  intros H Hin Hf Hh. locate H Hin.
  - destruct (preflight_failure H1 Hin Hf Hh) as [-> Hlast].
    split; [exact Hs|exact Hlast].
  - now destruct (preflight_failure H1 Hin Hf Hh).
  - destruct (diffJson_failure H2 Hin Hf Hh) as [-> [before ->]].
    split; [exact Hs|]. exists (tr1 ++ before)%list. now rewrite app_assoc.
  - now destruct (preflight_failure H1 Hin Hf Hh).
  - now destruct (diffJson_failure H2 Hin Hf Hh).
  - destruct (release_failure H3 Hin Hf) as [-> [before ->]].
    split; [reflexivity|]. exists (tr1 ++ tr2 ++ before)%list.
    now rewrite <- !app_assoc.
Qed.

(** ** The end of the process *)

Section Exits.
Variables (tmpdir repoRoot : string) (JSON_parse : string -> JsError + Json).
Variable args : Args.

Lemma preflight_exit [tr c] :
  runs preflight tr (Exited c) ->
  c = 1 /\
  exists cmd o err, In (EvExec cmd o (inl err)) tr /\ tool_probe cmd = true.
Proof.
  intros H. unfold preflight in H.
  follow H; try discriminate;
    match goal with E : Exited _ = Exited _ |- _ => injection E as -> end;
    (split; [reflexivity|]);
    match goal with
    | |- context [EvExec ?cmd ?o (inl ?err)] => exists cmd, o, err
    end;
    (split; [here|reflexivity]).
Qed.

Lemma diffJson_no_exit [tr c] :
  runs (diffJson tmpdir repoRoot) tr (Exited c) -> False.
Proof. intros H. unfold diffJson in H. follow H; discriminate. Qed.

Lemma release_no_exit head diff [tr c] :
  runs (release tmpdir repoRoot JSON_parse args head diff) tr (Exited c) ->
  False.
Proof. intros H. unfold release in H. follow H; discriminate. Qed.

End Exits.

(** X3: init ends the process itself only with exit code 1, and only after
    [gh version], [gh auth status] or [jq --version] has failed. *)
Theorem init_exits_only_with_1
    (tmpdir repoRoot : string) (JSON_parse : string -> JsError + Json)
    (args : Args) (tr : list Event) (c : Z) :
  runs (init tmpdir repoRoot JSON_parse args) tr (Exited c) ->
  c = 1 /\
  exists cmd o err, In (EvExec cmd o (inl err)) tr /\ tool_probe cmd = true.
Proof.
  intros H. apply init_inv in H.
  destruct H as [o1 H1 Hs|head tr1 tr2 o2 H1 H2 Hs ->
                |head diff tr1 tr2 tr3 H1 H2 H3 ->].
  - destruct o1 as [a|e|c1]; [destruct Hs|discriminate Hs|].
    injection Hs as ->. exact (preflight_exit H1).
  - destruct o2 as [a|e|c2]; [destruct Hs|discriminate Hs|].
    destruct (diffJson_no_exit H2).
  - destruct (release_no_exit H3).
Qed.

(** ** What the diff producer does when it returns, and where it writes *)

(** X4: when [diffJson] returns, it has made eight calls, in this order: it
    made a directory, installed the published package in it, pretty-printed
    the published [index.json] and wrote that text to
    [index.released.pretty.json] there, built the working tree,
    pretty-printed its [index.json] and wrote that text to
    [index.prepared.pretty.json] there, and ran [diff] on these two files;
    what it returns is what [diff] printed, on standard output or in the
    error of exit status 1. *)
Theorem diffJson_returns_after_all_steps
    (tmpdir repoRoot : string) (tr : list Event) (diff : JsVal) :
  runs (diffJson tmpdir repoRoot) tr (Returned diff) ->
  exists dir installed released wrote1 built prepared wrote2 answer,
    tr = [EvFs (MkdtempSync (path_join [tmpdir; "web-features-"])) (inr dir);
          EvExec "npm install web-features"
            (mkExecOpts (Some dir) (Some "utf-8") None) (inr installed);
          EvExec
            ("jq . "
               ++ Str.quoted
                    (path_join
                       [dir; "node_modules"; "web-features"; "index.json"]))
            utf8 (inr released);
          EvFs (WriteFileSync (path_join [dir; "index.released.pretty.json"])
                  released) (inr wrote1);
          EvExec "npm run build" inherit (inr built);
          EvExec
            ("jq . "
               ++ Str.quoted
                    (path_join [packages_web_features repoRoot; "index.json"]))
            utf8 (inr prepared);
          EvFs (WriteFileSync (path_join [dir; "index.prepared.pretty.json"])
                  prepared) (inr wrote2);
          EvExec
            ("diff --unified "
               ++ Str.quoted (path_join [dir; "index.released.pretty.json"])
               ++ " "
               ++ Str.quoted (path_join [dir; "index.prepared.pretty.json"]))
            utf8 answer] /\
    diff = produced_diff answer /\
    (forall err, answer = inl err -> err_status err = Some 1).
Proof.
  intros H. unfold diffJson in H.
  follow H; try discriminate;
    match goal with E : Returned _ = Returned _ |- _ => injection E as -> end;
    do 8 eexists; (split; [reflexivity|split; [reflexivity|]]).
  - intros e [= <-]. now apply status_is_true.
  - intros e [=].
Qed.

(** X5: whatever happens, each call of [node:fs] by which [diffJson] itself
    writes (its two [writeFileSync]) names a path in the directory that its
    own call of [mkdtempSync] made.  What the commands it starts write is
    not in this: [npm run build] writes the [index.json] of the package in
    the working tree. *)
Theorem diffJson_writes_in_its_directory
    (tmpdir repoRoot : string) (tr : list Event) (out : Outcome JsVal)
    (call : FsCall) (r : JsError + string) (path : string) :
  runs (diffJson tmpdir repoRoot) tr out ->
  In (EvFs call r) tr ->
  written_path call = Some path ->
  exists dir,
    In (EvFs (MkdtempSync (path_join [tmpdir; "web-features-"])) (inr dir)) tr
    /\ starts_with (dir ++ "/") path = true.
Proof.
  intros H Hin Hw. unfold diffJson in H.
  assert (Hsel : writing (EvFs call r) = true)
    by (cbn; now rewrite Hw).
  follow H;
    this_event writing Hin;
    injection Hin as <- <-; injection Hw as <-;
    match goal with
    | |- context [EvFs (MkdtempSync _) (inr ?d)] => exists d
    end;
    (split; [here|]);
    exact (starts_with_dir _ _).
Qed.

(** ** The manifest *)

Section Manifest.
Variables (tmpdir repoRoot : string) (JSON_parse : string -> JsError + Json).
Variable args : Args.

Lemma diffJson_reads_nothing [tr out path r] :
  runs (diffJson tmpdir repoRoot) tr out ->
  In (EvFs (ReadFileSync path) r) tr -> False.
Proof.
  intros H Hin. unfold diffJson in H.
  follow H;
    apply (In_filter reading) in Hin; try reflexivity;
    exact Hin.
Qed.

Lemma preflight_reads_nothing [tr] [out : Outcome string] [call r] :
  runs preflight tr out -> In (EvFs call r) tr -> False.
Proof.
  intros H Hin. apply In_fs_calls in Hin.
  now rewrite (proj2 (preflight_commands H)) in Hin.
Qed.

Lemma release_unreadable_manifest head diff [tr out e text0] :
  runs (release tmpdir repoRoot JSON_parse args head diff) tr out ->
  In (EvFs (ReadFileSync (manifest repoRoot)) (inr text0)) tr ->
  (forall text,
      In (EvFs (ReadFileSync (manifest repoRoot)) (inr text)) tr ->
      read_version JSON_parse text = inl e) ->
  out = Threw e /\
  exists before bumped text,
    tr = (before
            ++ [EvExec
                  ("npm version --no-git-tag-version "
                     ++ level_name (semverlevel args))
                  (mkExecOpts (Some (packages_web_features repoRoot)) None
                     (Some "inherit"))
                  (inr bumped);
                EvFs (ReadFileSync (manifest repoRoot)) (inr text)])%list.
Proof.
  intros H Hin Hall. unfold release in H.
  assert (Hsel : manifest_read
                   (EvFs (ReadFileSync (manifest repoRoot)) (inr text0))
                 = true) by reflexivity.
  follow H;
    apply (In_filter manifest_read) in Hin; try assumption;
    try (exact (False_ind _ Hin)); clear Hin;
    match goal with
    | E : JSON_parse ?x = _ |- _ =>
        let Hx := fresh "Hx" in
        assert (Hx : read_version JSON_parse x = inl e) by (apply Hall; here);
        unfold read_version in Hx; rewrite E in Hx
    end;
    try congruence;
    (split; [congruence|]);
    match goal with
    | |- exists before bumped text, ?l = _ =>
        exists (removelast (removelast l)); do 2 eexists; reflexivity
    end.
Qed.

End Manifest.

(** X6: when what init reads from the manifest after the bump does not parse,
    or parses to [null], init throws that error right after the read; by
    then the branch is made and checked out and the version is bumped, and
    nothing is committed. *)
Theorem init_unreadable_manifest
    (tmpdir repoRoot : string) (JSON_parse : string -> JsError + Json)
    (args : Args) (tr : list Event) (out : Outcome unit)
    (e : JsError) (text0 : string) :
  runs (init tmpdir repoRoot JSON_parse args) tr out ->
  In (EvFs (ReadFileSync (manifest repoRoot)) (inr text0)) tr ->
  (forall text,
      In (EvFs (ReadFileSync (manifest repoRoot)) (inr text)) tr ->
      read_version JSON_parse text = inl e) ->
  out = Threw e /\
  exists before bumped text,
    tr = (before
            ++ [EvExec
                  ("npm version --no-git-tag-version "
                     ++ level_name (semverlevel args))
                  (mkExecOpts (Some (packages_web_features repoRoot)) None
                     (Some "inherit"))
                  (inr bumped);
                EvFs (ReadFileSync (manifest repoRoot)) (inr text)])%list.
Proof.
  intros H Hin Hall. locate H Hin.
  - destruct (preflight_reads_nothing H1 Hin).
  - destruct (preflight_reads_nothing H1 Hin).
  - destruct (diffJson_reads_nothing H2 Hin).
  - destruct (preflight_reads_nothing H1 Hin).
  - destruct (diffJson_reads_nothing H2 Hin).
  - destruct (release_unreadable_manifest (e := e) H3 Hin)
      as [-> (before & bumped & text & ->)].
    + intros text Ht. apply Hall.
      apply in_or_app. right. apply in_or_app. now right.
    + split; [reflexivity|].
      exists (tr1 ++ tr2 ++ before)%list, bumped, text.
      now rewrite <- !app_assoc.
Qed.

(** X7: init does not check that the manifest has a [version]: when the
    manifest read after the bump is an object without that property, the
    commit message ends in [vundefined]. *)
Theorem init_missing_version
    (tmpdir repoRoot : string) (JSON_parse : string -> JsError + Json)
    (args : Args) (tr : list Event) (out : Outcome unit)
    (cmd : string) (o : ExecOpts) (r : JsError + string) :
  runs (init tmpdir repoRoot JSON_parse args) tr out ->
  In (EvExec cmd o r) tr ->
  starts_with "git commit " cmd = true ->
  (forall text,
      In (EvFs (ReadFileSync (manifest repoRoot)) (inr text)) tr ->
      exists fields,
        JSON_parse text = inr (JObject fields) /\
        lookup_field "version" fields = None) ->
  cmd = "git commit --all --message="
          ++ Str.quoted ("Increment " ++ level_name (semverlevel args)
                           ++ " version to vundefined").
Proof.
  intros H Hin Hcmd Hall. destruct (starts_with_app _ _ Hcmd) as [rest E].
  locate H Hin.
  1, 2, 4: subst cmd; not_in_preflight H1 Hin.
  1, 2: subst cmd; not_in_diffJson H2 Hin.
  destruct (release_commit H3 Hin Hcmd)
    as (bumped & text & json & version & Hc & Hp & Hv & ->).
  destruct (Hall text) as (fields & Hf & Hl).
  - apply in_or_app. right. apply in_or_app. right.
    apply (consecutive_In Hc). right. now left.
  - rewrite Hf in Hp. injection Hp as Hj. subst json.
    unfold destructure_version in Hv. rewrite Hl in Hv.
    injection Hv as Hv. now subst version.
Qed.

(** ** The order of the commands *)

Section Plans.
Variables (tmpdir repoRoot : string) (JSON_parse : string -> JsError + Json).
Variable args : Args.

Lemma preflight_in_order [tr] [out : Outcome string] :
  runs preflight tr out ->
  (exists rest, preflight_plan = (commands tr ++ rest)%list) /\
  (forall head, out = Returned head ->
     commands tr = preflight_plan /\
     exists headOut,
       head = Str.trim headOut /\
       In (EvExec "git rev-parse --abbrev-ref HEAD" utf8 (inr headOut)) tr).
Proof.
  intros H. unfold preflight in H.
  follow H; (split; [eexists; reflexivity|]);
    intros head E; try discriminate E; injection E as <-;
    (split; [reflexivity|]); eexists; (split; [reflexivity|here]).
Qed.

Lemma diffJson_in_order [tr out] :
  runs (diffJson tmpdir repoRoot) tr out ->
  exists dir,
    (exists rest, diffJson_plan repoRoot dir = (commands tr ++ rest)%list) /\
    (forall diff, out = Returned diff ->
       commands tr = diffJson_plan repoRoot dir /\
       In (EvFs (MkdtempSync (path_join [tmpdir; "web-features-"])) (inr dir))
         tr).
Proof.
  intros H. unfold diffJson in H.
  follow H;
    first [ match goal with
            | |- context [EvFs (MkdtempSync _) (inr ?d)] => exists d
            end
          | exists "" ];
    (split; [eexists; reflexivity|]);
    intros diff E; try discriminate E;
    (split; [reflexivity|here]).
Qed.

Lemma release_in_order head diff [tr out] :
  runs (release tmpdir repoRoot JSON_parse args head diff) tr out ->
  exists t version prDir,
    (exists rest,
        release_plan (semverlevel args) head t version prDir
        = (commands tr ++ rest)%list) /\
    (forall cmd o r,
        In (EvExec cmd o r) tr ->
        starts_with "gh pr create " cmd = true ->
        commands tr = release_plan (semverlevel args) head t version prDir /\
        In (EvDate t) tr /\
        In (EvFs (MkdtempSync (path_join [tmpdir; "pull-request-"]))
              (inr prDir)) tr /\
        exists bumped text,
          consecutive
            [EvExec
               ("npm version --no-git-tag-version "
                  ++ level_name (semverlevel args))
               (mkExecOpts (Some (packages_web_features repoRoot)) None
                  (Some "inherit"))
               (inr bumped);
             EvFs (ReadFileSync (manifest repoRoot)) (inr text)] tr /\
          read_version JSON_parse text = inr version).
Proof.
  intros H. unfold release in H.
  follow H;
    match goal with |- context [EvDate ?t] => exists t end;
    first [ match goal with
            | E : destructure_version _ = inr ?v |- _ => exists v
            end
          | exists None ];
    first [ match goal with
            | |- context [EvFs (MkdtempSync _) (inr ?d)] => exists d
            end
          | exists "" ];
    (split; [eexists; reflexivity|]);
    intros ? ? ? Hin Hcmd;
    in_trace_by (exec_of (starts_with "gh pr create ")) Hin;
    (split; [reflexivity|]); (split; [here|]); (split; [here|]);
    do 2 eexists; (split; [find_split|]);
    unfold read_version;
    match goal with E : JSON_parse _ = _ |- _ => rewrite E end;
    assumption.
Qed.

End Plans.

(** X8: in every run of init, however far it gets, the commands it has run
    are the first ones of one list: the four of the preflight checks, the
    five of [diffJson], then [git branch], [git checkout], [npm version],
    [git commit], [git push] and [gh pr create]; so none of them runs before
    all the ones before it in the list have run. *)
Theorem init_commands_in_order
    (tmpdir repoRoot : string) (JSON_parse : string -> JsError + Json)
    (args : Args) (tr : list Event) (out : Outcome unit) :
  runs (init tmpdir repoRoot JSON_parse args) tr out ->
  exists head dir t version prDir rest,
    init_plan repoRoot (semverlevel args) head dir t version prDir
    = (commands tr ++ rest)%list.
Proof.
  intros H. apply init_inv in H. unfold init_plan.
  destruct H as [o1 H1 Hs|head tr1 tr2 o2 H1 H2 Hs ->
                |head diff tr1 tr2 tr3 H1 H2 H3 ->].
  - destruct (preflight_in_order H1) as [[rest E1] _].
    exists "", "", 0, None, "".
    exists (rest ++ diffJson_plan repoRoot ""
              ++ release_plan (semverlevel args) "" 0 None "")%list.
    now rewrite E1, <- app_assoc.
  - destruct (preflight_in_order H1) as [_ Hp].
    destruct (Hp head eq_refl) as [E1 _].
    destruct (diffJson_in_order H2) as (dir & [rest E2] & _).
    exists head, dir, 0, None, "".
    exists (rest ++ release_plan (semverlevel args) head 0 None "")%list.
    now rewrite commands_app, E1, E2, <- !app_assoc.
  - destruct (preflight_in_order H1) as [_ Hp].
    destruct (Hp head eq_refl) as [E1 _].
    destruct (diffJson_in_order H2) as (dir & _ & Hd).
    destruct (Hd diff eq_refl) as [E2 _].
    destruct (release_in_order H3) as (t & version & prDir & [rest E3] & _).
    exists head, dir, t, version, prDir, rest.
    now rewrite !commands_app, E1, E2, E3, <- !app_assoc.
Qed.

(** X9: when init runs [gh pr create], the commands of the run are the whole
    list, made with what the run itself met: the branch is made from the
    trimmed answer of [git rev-parse], the one name [release-...] of the time
    read from the clock is the branch made, checked out, pushed and given as
    the head of the pull request, the level given is the level of
    [npm version], and the version of the commit message and of the title is
    the one read from the manifest right after the bump. *)
Theorem init_commands_of_a_release
    (tmpdir repoRoot : string) (JSON_parse : string -> JsError + Json)
    (args : Args) (tr : list Event) (out : Outcome unit)
    (cmd : string) (o : ExecOpts) (r : JsError + string) :
  runs (init tmpdir repoRoot JSON_parse args) tr out ->
  In (EvExec cmd o r) tr ->
  starts_with "gh pr create " cmd = true ->
  exists headOut dir t version prDir,
    commands tr
    = init_plan repoRoot (semverlevel args) (Str.trim headOut) dir t version
        prDir /\
    In (EvExec "git rev-parse --abbrev-ref HEAD" utf8 (inr headOut)) tr /\
    In (EvFs (MkdtempSync (path_join [tmpdir; "web-features-"])) (inr dir))
      tr /\
    In (EvDate t) tr /\
    In (EvFs (MkdtempSync (path_join [tmpdir; "pull-request-"])) (inr prDir))
      tr /\
    exists bumped text,
      consecutive
        [EvExec
           ("npm version --no-git-tag-version "
              ++ level_name (semverlevel args))
           (mkExecOpts (Some (packages_web_features repoRoot)) None
              (Some "inherit"))
           (inr bumped);
         EvFs (ReadFileSync (manifest repoRoot)) (inr text)] tr /\
      read_version JSON_parse text = inr version.
Proof.
  intros H Hin Hcmd. destruct (starts_with_app _ _ Hcmd) as [rest E].
  locate H Hin.
  1, 2, 4: subst cmd; not_in_preflight H1 Hin.
  1, 2: subst cmd; not_in_diffJson H2 Hin.
  destruct (preflight_in_order H1) as [_ Hp].
  destruct (Hp head eq_refl) as (Hc1 & headOut & -> & Hrev).
  destruct (diffJson_in_order H2) as (dir & _ & Hd).
  destruct (Hd diff eq_refl) as [Hc2 Hdir].
  destruct (release_in_order H3) as (t & version & prDir & _ & Hr).
  destruct (Hr cmd o r Hin Hcmd)
    as (Hc3 & Ht & Hpr & bumped & text & Hcons & Hv).
  exists headOut, dir, t, version, prDir. repeat split.
  - unfold init_plan. now rewrite !commands_app, Hc1, Hc2, Hc3.
  - apply in_or_app. now left.
  - apply in_or_app. right. apply in_or_app. now left.
  - apply in_or_app. right. apply in_or_app. now right.
  - apply in_or_app. right. apply in_or_app. now right.
  - exists bumped, text. split; [|exact Hv].
    now do 2 apply consecutive_app_r.
Qed.

(** ** The warning *)

Section Warnings.
Variables (tmpdir repoRoot : string) (JSON_parse : string -> JsError + Json).
Variable args : Args.

Lemma preflight_quiet_on_main [tr] [out : Outcome string] [headOut] :
  runs preflight tr out ->
  In (EvExec "git rev-parse --abbrev-ref HEAD" utf8 (inr headOut)) tr ->
  Str.trim headOut = "main" ->
  Forall (fun ev => is_warning ev = false) tr.
Proof.
  intros H Hin Hmain. unfold preflight in H.
  follow H;
    in_trace_by (exec_of (String.eqb "git rev-parse --abbrev-ref HEAD")) Hin;
    try (match goal with
         | E : (_ =? _)%string = false |- _ =>
             rewrite Hmain in E; discriminate E
         end);
    repeat constructor.
Qed.

Lemma diffJson_quiet [tr out] :
  runs (diffJson tmpdir repoRoot) tr out ->
  Forall (fun ev => is_warning ev = false) tr.
Proof. intros H. unfold diffJson in H. follow H; repeat constructor. Qed.

Lemma release_quiet head diff [tr out] :
  runs (release tmpdir repoRoot JSON_parse args head diff) tr out ->
  Forall (fun ev => is_warning ev = false) tr.
Proof. intros H. unfold release in H. follow H; repeat constructor. Qed.

End Warnings.

(** X10: when the branch checked out is [main], init logs no warning at all,
    in the preflight checks or later. *)
Theorem no_warning_on_main
    (tmpdir repoRoot : string) (JSON_parse : string -> JsError + Json)
    (args : Args) (tr : list Event) (out : Outcome unit) (headOut : string) :
  runs (init tmpdir repoRoot JSON_parse args) tr out ->
  In (EvExec "git rev-parse --abbrev-ref HEAD" utf8 (inr headOut)) tr ->
  Str.trim headOut = "main" ->
  Forall (fun ev => is_warning ev = false) tr.
Proof.
  intros H Hin Hmain. locate H Hin.
  - exact (preflight_quiet_on_main H1 Hin Hmain).
  - apply Forall_app. split.
    + exact (preflight_quiet_on_main H1 Hin Hmain).
    + exact (diffJson_quiet H2).
  - not_in_diffJson H2 Hin.
  - apply Forall_app. split; [|apply Forall_app; split].
    + exact (preflight_quiet_on_main H1 Hin Hmain).
    + exact (diffJson_quiet H2).
    + exact (release_quiet H3).
  - not_in_diffJson H2 Hin.
  - not_in_release H3 Hin.
Qed.

(** ** The width of the branch name *)

Lemma length_append (a b : string) :
  String.length (a ++ b) = (String.length a + String.length b)%nat.
Proof. induction a as [|c a IH]; simpl; [reflexivity|now rewrite IH]. Qed.

Lemma pad_length w n : String.length (JsDate.pad w n) = w.
Proof.
  revert n. induction w as [|w IH]; intros n; cbn [JsDate.pad];
    [reflexivity|].
  rewrite length_append, IH. cbn [String.length]. lia.
Qed.

(** The year 0 starts 62167219200000 ms before the epoch. *)
Lemma YearFromTime_from_0 t :
  -62167219200000 <= t -> 0 <= JsDate.YearFromTime t.
Proof. intros H. JsDateFacts.calendar. Qed.

(** X11: from the year 0 to the year 9999 the release branch name is
    [release-] and seventeen digits, so that all the names have one width. *)
Theorem release_branch_name_width (t : Z) :
  -62167219200000 <= t < 253402300800000 ->
  exists digits,
    releaseBranchName t = "release-" ++ digits /\
    String.length digits = 17%nat /\
    Str.all_chars Str.is_digit digits = true.
Proof.
  intros [Hlo Hhi]. exists (compactISO t).
  split; [reflexivity|]. split; [|now apply BranchName.compactISO_digits].
  apply YearFromTime_from_0 in Hlo.
  apply JsDateFacts.YearFromTime_before_10000 in Hhi.
  rewrite JsDateFacts.compactISO_eq. unfold JsDate.isoYear.
  destruct (Z.leb_spec 0 (JsDate.YearFromTime t)); [|lia].
  destruct (Z.leb_spec (JsDate.YearFromTime t) 9999); [|lia].
  cbn [andb]. rewrite JsDateFacts.drop_pad. unfold JsDate.compactRest.
  now rewrite !length_append, !pad_length.
Qed.

(** ** The further theorems at work *)

Lemma cases_init_runs (m : Demo.Machine) (text : string)
    (level : SemverLevel) :
  runs (init "/tmp" "/repo" Cases.parse (mkArgs level))
    (fst (Cases.run_init m text level)) (snd (Cases.run_init m text level)).
Proof. apply interp_runs. Qed.

Lemma diffJson_step_failure_propagates_witness :
  snd (Demo.run_diffJson Cases.build_broken)
  = Threw (ChildProcessError (Demo.exited_inherit 2)) /\
  exists before,
    fst (Demo.run_diffJson Cases.build_broken)
    = (before
         ++ [EvExec "npm run build" inherit
               (inl (ChildProcessError (Demo.exited_inherit 2)))])%list.
Proof.
  apply (@diffJson_step_failure_propagates "/tmp" "/repo" _ _
           (EvExec "npm run build" inherit
              (inl (ChildProcessError (Demo.exited_inherit 2))))
           (ChildProcessError (Demo.exited_inherit 2))
           (demo_diffJson_runs _)).
  - in_run.
  - reflexivity.
  - reflexivity.
Defined.

Lemma init_failure_propagates_witness :
  snd (Demo.run_init Cases.push_rejected patch)
  = Threw (ChildProcessError (Demo.exited_inherit 1)) /\
  exists before,
    fst (Demo.run_init Cases.push_rejected patch)
    = (before
         ++ [EvExec "git push --set-upstream origin release-20230301125456789"
               inherit (inl (ChildProcessError (Demo.exited_inherit 1)))])%list.
Proof.
  apply (@init_failure_propagates "/tmp" "/repo" Demo.parse (mkArgs patch) _ _
           (EvExec "git push --set-upstream origin release-20230301125456789"
              inherit (inl (ChildProcessError (Demo.exited_inherit 1))))
           (ChildProcessError (Demo.exited_inherit 1))
           (demo_init_runs _ _)).
  - in_run.
  - reflexivity.
  - reflexivity.
Defined.

Lemma demo_logged_out_exits :
  snd (Demo.run_init Demo.logged_out patch) = Exited 1.
Proof. vm_compute. reflexivity. Qed.

Lemma init_exits_only_with_1_witness :
  1 = 1 /\
  exists cmd o err,
    In (EvExec cmd o (inl err)) (fst (Demo.run_init Demo.logged_out patch)) /\
    tool_probe cmd = true.
Proof.
  apply (@init_exits_only_with_1 "/tmp" "/repo" Demo.parse (mkArgs patch)).
  pose proof (demo_init_runs Demo.logged_out patch) as R.
  rewrite demo_logged_out_exits in R. exact R.
Defined.

Lemma demo_diffJson_returns :
  snd (Demo.run_diffJson Demo.healthy) = Returned (JsString "").
Proof. vm_compute. reflexivity. Qed.

Lemma diffJson_returns_after_all_steps_witness :
  exists dir installed released wrote1 built prepared wrote2 answer,
    fst (Demo.run_diffJson Demo.healthy)
    = [EvFs (MkdtempSync (path_join ["/tmp"; "web-features-"])) (inr dir);
       EvExec "npm install web-features"
         (mkExecOpts (Some dir) (Some "utf-8") None) (inr installed);
       EvExec
         ("jq . "
            ++ Str.quoted
                 (path_join
                    [dir; "node_modules"; "web-features"; "index.json"]))
         utf8 (inr released);
       EvFs (WriteFileSync (path_join [dir; "index.released.pretty.json"])
               released) (inr wrote1);
       EvExec "npm run build" inherit (inr built);
       EvExec
         ("jq . "
            ++ Str.quoted
                 (path_join [packages_web_features "/repo"; "index.json"]))
         utf8 (inr prepared);
       EvFs (WriteFileSync (path_join [dir; "index.prepared.pretty.json"])
               prepared) (inr wrote2);
       EvExec
         ("diff --unified "
            ++ Str.quoted (path_join [dir; "index.released.pretty.json"])
            ++ " "
            ++ Str.quoted (path_join [dir; "index.prepared.pretty.json"]))
         utf8 answer] /\
    JsString "" = produced_diff answer /\
    (forall err, answer = inl err -> err_status err = Some 1).
Proof.
  apply (@diffJson_returns_after_all_steps "/tmp" "/repo").
  pose proof (demo_diffJson_runs Demo.healthy) as R.
  rewrite demo_diffJson_returns in R. exact R.
Defined.

Lemma diffJson_writes_in_its_directory_witness :
  exists dir,
    In (EvFs (MkdtempSync (path_join ["/tmp"; "web-features-"])) (inr dir))
      (fst (Demo.run_diffJson Demo.healthy)) /\
    starts_with (dir ++ "/")
      "/tmp/web-features-Xk3v9Q/index.released.pretty.json" = true.
Proof.
  apply (@diffJson_writes_in_its_directory "/tmp" "/repo" _ _
           (WriteFileSync
              "/tmp/web-features-Xk3v9Q/index.released.pretty.json" "")
           (inr "") _ (demo_diffJson_runs _)).
  - in_run.
  - reflexivity.
Defined.

Lemma init_unreadable_manifest_witness :
  snd (Cases.run_init Demo.healthy Cases.truncatedText patch)
  = Threw (SyntaxError "Unexpected token in JSON") /\
  exists before bumped text,
    fst (Cases.run_init Demo.healthy Cases.truncatedText patch)
    = (before
         ++ [EvExec "npm version --no-git-tag-version patch"
               (mkExecOpts (Some (packages_web_features "/repo")) None
                  (Some "inherit"))
               (inr bumped);
             EvFs (ReadFileSync (manifest "/repo")) (inr text)])%list.
Proof.
  apply (@init_unreadable_manifest "/tmp" "/repo" Cases.parse (mkArgs patch)
           _ _ (SyntaxError "Unexpected token in JSON") Cases.truncatedText
           (cases_init_runs _ _ _)).
  - in_run.
  - intros text Hin.
    pose proof (@In_filter manifest_read _ _ Hin eq_refl) as Hf. clear Hin.
    replace (filter manifest_read
               (fst (Cases.run_init Demo.healthy Cases.truncatedText patch)))
      with [EvFs (ReadFileSync (manifest "/repo")) (inr Cases.truncatedText)]
      in Hf by (vm_compute; reflexivity).
    destruct Hf as [Hf|[]]. injection Hf as <-. reflexivity.
Defined.

Lemma init_missing_version_witness :
  "git commit --all --message="
    ++ Str.quoted "Increment minor version to vundefined"
  = "git commit --all --message="
      ++ Str.quoted ("Increment " ++ "minor" ++ " version to vundefined").
Proof.
  apply (@init_missing_version "/tmp" "/repo" Cases.parse (mkArgs minor)
           (fst (Cases.run_init Demo.healthy Cases.namelessText minor))
           (snd (Cases.run_init Demo.healthy Cases.namelessText minor))
           _ inherit (inr "") (cases_init_runs _ _ _)).
  - in_run.
  - reflexivity.
  - intros text Hin.
    pose proof (@In_filter manifest_read _ _ Hin eq_refl) as Hf. clear Hin.
    replace (filter manifest_read
               (fst (Cases.run_init Demo.healthy Cases.namelessText minor)))
      with [EvFs (ReadFileSync (manifest "/repo")) (inr Cases.namelessText);
            EvFs (ReadFileSync (manifest "/repo")) (inr Cases.namelessText)]
      in Hf by (vm_compute; reflexivity).
    exists [("name", JString "web-features")].
    destruct Hf as [Hf|[Hf|[]]]; injection Hf as <-; split; reflexivity.
Defined.

Lemma init_commands_in_order_witness :
  exists head dir t version prDir rest,
    init_plan "/repo" patch head dir t version prDir
    = (commands (fst (Demo.run_init Cases.push_rejected patch)) ++ rest)%list.
Proof.
  apply (@init_commands_in_order "/tmp" "/repo" Demo.parse (mkArgs patch)
           _ _ (demo_init_runs _ _)).
Defined.

Lemma init_commands_of_a_release_witness :
  exists headOut dir t version prDir,
    commands (fst (Demo.run_init Demo.healthy major))
    = init_plan "/repo" major (Str.trim headOut) dir t version prDir /\
    In (EvExec "git rev-parse --abbrev-ref HEAD" utf8 (inr headOut))
      (fst (Demo.run_init Demo.healthy major)) /\
    In (EvFs (MkdtempSync (path_join ["/tmp"; "web-features-"])) (inr dir))
      (fst (Demo.run_init Demo.healthy major)) /\
    In (EvDate t) (fst (Demo.run_init Demo.healthy major)) /\
    In (EvFs (MkdtempSync (path_join ["/tmp"; "pull-request-"])) (inr prDir))
      (fst (Demo.run_init Demo.healthy major)) /\
    exists bumped text,
      consecutive
        [EvExec "npm version --no-git-tag-version major"
           (mkExecOpts (Some (packages_web_features "/repo")) None
              (Some "inherit"))
           (inr bumped);
         EvFs (ReadFileSync (manifest "/repo")) (inr text)]
        (fst (Demo.run_init Demo.healthy major)) /\
      read_version Demo.parse text = inr version.
Proof.
  apply (@init_commands_of_a_release "/tmp" "/repo" Demo.parse (mkArgs major)
           _ _ Demo.pullRequestCmd inherit (inr "") (demo_init_runs _ _)).
  - in_run.
  - reflexivity.
Defined.

Lemma no_warning_on_main_witness :
  Forall (fun ev => is_warning ev = false)
    (fst (Demo.run_init Demo.healthy patch)).
Proof.
  apply (@no_warning_on_main "/tmp" "/repo" Demo.parse (mkArgs patch) _ _
           ("main" ++ Str.nl) (demo_init_runs _ _)).
  - in_run.
  - reflexivity.
Defined.

Lemma release_branch_name_width_witness :
  exists digits,
    releaseBranchName 1677675296789 = "release-" ++ digits /\
    String.length digits = 17%nat /\
    Str.all_chars Str.is_digit digits = true.
Proof. apply release_branch_name_width. lia. Defined.
